(** * PARA planner: entry classification, task toggling and project progress

    A shallow embedding of the logic of two React components of the planner:

    - [DailyView] (src/components/DailyView.tsx): [isUrl], [handleAddTask],
      [toggleTask], [deleteTask], the click guard of a task card, the
      columns of the board and the form's controls;
    - [ProjectView] / [ProjectCard] (src/unnamed/part_000): [activeProjects],
      [getProgress], [addProject], [handleBreakdown], the buttons and the
      edit form of a project card.

    JavaScript values are modelled as the code has them: numbers are binary64
    values with their rounding written out ([JSNumber]), strings are
    sequences of code units ([JSString]), a rejected promise or a thrown
    exception is an abrupt completion ([Completion]), React state is threaded
    explicitly ([Handler]). *)

From Stdlib Require Import ZArith QArith Qround Qabs Qpower Lqa Lia Floats Uint63.
From stdpp Require Import base list strings pretty.

(** ** JavaScript numbers

    A finite Number is a rational; every arithmetic operation returns the
    exact result rounded to the nearest binary64 value, ties to even
    (53 significant bits, gradual underflow below [2^-1022]).  Overflow does
    not arise here: every value computed by [getProgress] is at most 100. *)
Module JSNumber.
Local Open Scope Q_scope.

(** Exponent of the least subnormal, [2^-1074]. *)
Definition emin : Z := (-1074)%Z.

(** [floor (log2 x)] for a positive rational [x]. *)
Definition ilog2 (x : Q) : Z :=
  let l := (Z.log2 (Qnum x) - Z.log2 (Z.pos (Qden x)))%Z in
  if Qle_bool (2 ^ l) x then l else (l - 1)%Z.

(** Exponent of the unit in the last place of the binade of [x]. *)
Definition ulp_exp (x : Q) : Z := Z.max (ilog2 x - 52) emin.

(** Nearest integer, ties to even. *)
Definition rne (s : Q) : Z :=
  let f := Qfloor s in
  match Qcompare (s - inject_Z f) (1 # 2) with
  | Lt => f
  | Gt => (f + 1)%Z
  | Eq => if Z.even f then f else (f + 1)%Z
  end.

(** Round a rational to binary64. *)
Definition round64 (x : Q) : Q :=
  let x := Qred x in
  match Qnum x with
  | Z0 => 0
  | Zpos _ => let e := ulp_exp x in Qred (inject_Z (rne (x / 2 ^ e)) * 2 ^ e)
  | Zneg _ => let e := ulp_exp (- x) in Qred (- (inject_Z (rne (- x / 2 ^ e)) * 2 ^ e))
  end.

(** The operators [/] and [*] on Numbers. *)
Definition div (x y : Q) : Q := round64 (x / y).
Definition mul (x y : Q) : Q := round64 (x * y).

(** [Math.round]: the nearest integer, a tie going to the larger one. *)
Definition Math_round (x : Q) : Z := Qfloor (x + (1 # 2)).

(** An array length as a Number (exact: lengths are below [2^32]). *)
Definition of_nat (n : nat) : Q := inject_Z (Z.of_nat n).

(** [Math.round((c / t) * 100)] on two lengths. *)
Definition percent (c t : nat) : Z := Math_round (mul (div (of_nat c) (of_nat t)) 100).

(** The exact percentage [100 * c / t], and whether it lies halfway between
    two integers. *)
Definition exact_percent (c t : nat) : Q := 100 * of_nat c / of_nat t.
Definition tie (c t : nat) : Prop := exists k : Z, exact_percent c t == inject_Z k + (1 # 2).

(** Does the code's percentage equal the half-up rounding of the exact one? *)
Definition half_up_agrees (c t : nat) : bool :=
  Z.eqb (percent c t) (Math_round (exact_percent c t)).

(** The same computation on the kernel's binary64 floats, to check
    [round64] against an independent implementation of IEEE 754. *)
Definition float_value (f : float) : option Q :=
  match Prim2SF f with
  | S754_zero _ => Some 0
  | S754_finite s m e => Some ((if s then -1 else 1) * inject_Z (Z.pos m) * 2 ^ e)
  | _ => None
  end.

Definition float_of_nat (n : nat) : float := PrimFloat.of_uint63 (Uint63.of_Z (Z.of_nat n)).

Definition percent64 (c t : nat) : option Z :=
  option_map Math_round
    (float_value (PrimFloat.mul (PrimFloat.div (float_of_nat c) (float_of_nat t)) (float_of_nat 100))).

(** The spec's formula in the arithmetic of the code,
    [Math.round(100 * c / t)]: the product first, then the quotient. *)
Definition percent_as_specified (c t : nat) : Z :=
  Math_round (div (mul 100 (of_nat c)) (of_nat t)).

(** The same on the kernel's floats. *)
Definition percent64_as_specified (c t : nat) : option Z :=
  option_map Math_round
    (float_value (PrimFloat.div (PrimFloat.mul (float_of_nat 100) (float_of_nat c)) (float_of_nat t))).

(** Do the two implementations compute the same product [(c / t) * 100]? *)
Definition agree_at (c t : Z) : bool :=
  let n k := PrimFloat.of_uint63 (Uint63.of_Z k) in
  match float_value (PrimFloat.mul (PrimFloat.div (n c) (n t)) (n 100%Z)) with
  | Some q => Qeq_bool q (mul (div (inject_Z c) (inject_Z t)) 100)
  | None => false
  end.

(** Do the two implementations agree on every [c <= t] with [1 <= t <= n]? *)
Definition agree_upto (n : nat) : bool :=
  forallb (fun t =>
    forallb (fun c =>
      match percent64 c t with
      | Some z => Z.eqb z (percent c t)
      | None => false
      end) (seq 0 (S t))) (seq 1 n).

End JSNumber.

(** ** JavaScript strings

    A string is a sequence of code units; the model keeps the 8-bit ones. *)
Module JSString.

(** [WhiteSpace] and [LineTerminator] code units: TAB, LF, VT, FF, CR, SP
    and NBSP. *)
Definition isWhiteSpace (c : Ascii.ascii) : bool :=
  match Ascii.N_of_ascii c with
  | 9%N | 10%N | 11%N | 12%N | 13%N | 32%N | 160%N => true
  | _ => false
  end.

Fixpoint trimStart (s : string) : string :=
  match s with
  | EmptyString => EmptyString
  | String c s' => if isWhiteSpace c then trimStart s' else s
  end.

Definition trimEnd (s : string) : string := String.rev (trimStart (String.rev s)).

(** [s.trim()]. *)
Definition trim (s : string) : string := trimEnd (trimStart s).

(** Does [s] consist of white space only? *)
Fixpoint isBlank (s : string) : bool :=
  match s with
  | EmptyString => true
  | String c s' => isWhiteSpace c && isBlank s'
  end.

(** [s.startsWith(p)]. *)
Definition startsWith (s p : string) : bool := String.prefix p s.

Fixpoint drop (n : nat) (s : string) : string :=
  match n, s with
  | O, _ => s
  | S n', String _ s' => drop n' s'
  | S _, EmptyString => EmptyString
  end.

(** [s.replace(pattern, replacement)] with a string pattern: only the first
    occurrence of [pattern] is replaced, wherever it stands.  (The
    replacement is taken literally; the one the code passes is empty.) *)
Fixpoint replace (s pattern replacement : string) : string :=
  if String.prefix pattern s then replacement +:+ drop (String.length pattern) s
  else match s with
       | EmptyString => EmptyString
       | String c s' => String c (replace s' pattern replacement)
       end.

End JSString.

(** ** Completions: a value, or an exception (a rejected promise once
    awaited) *)
Inductive Completion (A : Type) : Type :=
| Normal (a : A)
| Throw.
Arguments Normal {A} a.
Arguments Throw {A}.

#[global] Instance Completion_ret : MRet Completion := fun A a => Normal a.
#[global] Instance Completion_bind : MBind Completion :=
  fun A B f m => match m with Normal a => f a | Throw => Throw end.

(** [Promise.all([p1, p2])]: both calls are issued; the result is the pair
    of their values, or a rejection when either rejects. *)
Definition Promise_all {A B : Type} (p1 : Completion A) (p2 : Completion B) : Completion (A * B) :=
  match p1, p2 with
  | Normal a, Normal b => Normal (a, b)
  | _, _ => Throw
  end.

(** ** Data model (types.ts: the fields the two components use) *)

Inductive ParaCategory : Type := Projects | Areas | Resources | Archives.

#[global] Instance ParaCategory_eq_dec : EqDecision ParaCategory.
Proof. solve_decision. Defined.

(** The form's [manualCategory : ParaCategory | 'Auto']. *)
Inductive CategoryChoice : Type :=
| Auto
| Chosen (c : ParaCategory).

Module LinkMetadata.
Record t : Type := mk {
  displayTitle : string;
  domain : string;
  favicon : string;
  slug : string;
  isPinned : bool
}.
End LinkMetadata.

Module ProjectItem.
Record t : Type := mk {
  id : string;
  title : string;
  completed : bool;
  deadline : option string
}.
End ProjectItem.

Module Task.
Record t : Type := mk {
  id : string;
  title : string;
  category : ParaCategory;
  date : string;
  completed : bool;
  linkMetadata : option LinkMetadata.t;
  notes : option string;
  archivedItems : option (list ProjectItem.t)
}.

(** [{ ...t, completed: b }]. *)
Definition with_completed (b : bool) (task : t) : t :=
  mk (id task) (title task) (category task) (date task) b
     (linkMetadata task) (notes task) (archivedItems task).
End Task.

Inductive Term : Type := Mid | Long.

Module Project.
Record t : Type := mk {
  id : string;
  title : string;
  description : string;
  term : Term;
  deadline : string;
  status : string;
  items : list ProjectItem.t;
  slug : string
}.
End Project.

(** ** DailyView (src/components/DailyView.tsx) *)
Module DailyView.

(** What the handler calls outside the component: the platform's URL parser
    and the three services of geminiService.  Each answers with a value or
    fails ([new URL] throws a TypeError, a service's promise rejects). *)
Record Env : Type := {
  URL_hostname : string -> Completion string;
  summarizeLink : string -> Completion string;
  generateShortSlug : string -> Completion string;
  categorizeTask : string -> Completion ParaCategory
}.

(** The arguments of one call [onAddTask(title, category, date, metadata)]:
    the entry the component asks its parent to create. *)
Record AddTaskArgs : Type := {
  arg_title : string;
  arg_category : ParaCategory;
  arg_date : string;
  arg_metadata : option LinkMetadata.t
}.

(** The component's state, and the calls it has made to [onAddTask]
    (oldest first). *)
Record State : Type := {
  newTaskTitle : string;
  manualCategory : CategoryChoice;
  selectedDate : string;
  isAiLoading : bool;
  onAddTask_calls : list AddTaskArgs
}.

(** An event handler: it runs on the state, changes it, and completes
    normally or with an exception; what it changed before an exception
    stays changed. *)
Definition Handler (A : Type) : Type := State -> Completion A * State.

#[global] Instance Handler_ret : MRet Handler := fun A a st => (Normal a, st).
#[global] Instance Handler_bind : MBind Handler :=
  fun A B f m st =>
    match m st with
    | (Normal a, st') => f a st'
    | (Throw, st') => (Throw, st')
    end.

(** [await p]. *)
Definition await {A : Type} (p : Completion A) : Handler A := fun st => (p, st).

(** [try { body } catch (e) { handler }]. *)
Definition tryCatch {A : Type} (body handler : Handler A) : Handler A :=
  fun st =>
    match body st with
    | (Normal a, st') => (Normal a, st')
    | (Throw, st') => handler st'
    end.

Definition setIsAiLoading (b : bool) : Handler unit :=
  fun st => (Normal tt,
             Build_State (newTaskTitle st) (manualCategory st) (selectedDate st) b
                         (onAddTask_calls st)).

Definition setNewTaskTitle (s : string) : Handler unit :=
  fun st => (Normal tt,
             Build_State s (manualCategory st) (selectedDate st) (isAiLoading st)
                         (onAddTask_calls st)).

Definition onAddTask (title : string) (category : ParaCategory) (date : string)
    (metadata : option LinkMetadata.t) : Handler unit :=
  fun st => (Normal tt,
             Build_State (newTaskTitle st) (manualCategory st) (selectedDate st) (isAiLoading st)
                         (onAddTask_calls st ++ [Build_AddTaskArgs title category date metadata])).

(** [const isUrl = (text) => text.startsWith('http')]. *)
Definition isUrl (text : string) : bool := JSString.startsWith text "http".

(** [handleAddTask]: the form's submit handler.  [newTaskTitle],
    [manualCategory] and [selectedDate] are the values of the render the
    handler was created in. *)
Definition handleAddTask (env : Env) : Handler unit :=
  fun st =>
    let newTaskTitle := newTaskTitle st in
    let manualCategory := manualCategory st in
    let selectedDate := selectedDate st in
    (if decide (JSString.trim newTaskTitle = "") then mret tt
     else
       setIsAiLoading true ;;
       '(finalCategory, linkMeta) ←
         (if isUrl newTaskTitle then
            tryCatch
              (hostname ← await (URL_hostname env newTaskTitle);
               let domain := JSString.replace hostname "www." "" in
               '(displayTitle, slug) ←
                 await (Promise_all (summarizeLink env newTaskTitle)
                                    (generateShortSlug env newTaskTitle));
               let linkMeta :=
                 LinkMetadata.mk displayTitle domain
                   ("https://www.google.com/s2/favicons?domain=" +:+ domain +:+ "&sz=64")
                   slug false in
               mret (match manualCategory with Auto => Resources | Chosen c => c end,
                     Some linkMeta))
              (finalCategory ←
                 match manualCategory with
                 | Auto => await (categorizeTask env newTaskTitle)
                 | Chosen c => mret c
                 end;
               mret (finalCategory, None))
          else
            finalCategory ←
              match manualCategory with
              | Auto => await (categorizeTask env newTaskTitle)
              | Chosen c => mret c
              end;
            mret (finalCategory, None));
       onAddTask newTaskTitle finalCategory selectedDate linkMeta ;;
       setNewTaskTitle "" ;;
       setIsAiLoading false) st.

(** Unfold one run of the handler down to the environment's answers. *)
Ltac run_handler :=
  unfold handleAddTask, mbind, mret, Handler_bind, Handler_ret, tryCatch, await,
    setIsAiLoading, setNewTaskTitle, onAddTask, Promise_all;
  cbn [newTaskTitle manualCategory selectedDate isAiLoading onAddTask_calls fst snd].

(** The state a run of [handleAddTask] ends in when it asks for [call]:
    the input cleared, the spinner off, the call recorded. *)
Definition created (st : State) (call : AddTaskArgs) : State :=
  Build_State "" (manualCategory st) (selectedDate st) false (onAddTask_calls st ++ [call]).

(** Link resolution fails when the text does not parse as a URL or one of
    the two link services rejects. *)
Definition linkFailed (env : Env) (text : string) : Prop :=
  URL_hostname env text = Throw
  \/ summarizeLink env text = Throw
  \/ generateShortSlug env text = Throw.

(** The callback of [prev.map] in [toggleTask]:
    [t => t.id === id ? { ...t, completed: !t.completed } : t]. *)
Definition flip_if (id : string) (t : Task.t) : Task.t :=
  if decide (Task.id t = id) then Task.with_completed (negb (Task.completed t)) t else t.

(** [toggleTask]: [tasks] is the collection the component was rendered
    with, and the result the collection after [setTasks] ([tasks] again when
    the handler returns before it). *)
Definition toggleTask (id : string) (tasks : list Task.t) : list Task.t :=
  let task := List.find (fun t => bool_decide (Task.id t = id)) tasks in
  if decide (Task.category <$> task = Some Resources) then tasks
  else flip_if id <$> tasks.

(** [deleteTask]. *)
Definition deleteTask (id : string) (tasks : list Task.t) : list Task.t :=
  filter (fun t => Task.id t ≠ id) tasks.

(** [task.category === 'Archives' && task.archivedItems] (an array, even an
    empty one, is truthy). *)
Definition isArchivedProject (task : Task.t) : bool :=
  bool_decide (Task.category task = Archives) && bool_decide (is_Some (Task.archivedItems task)).

(** The card's [onClick]:
    [!isResources && !isArchivedProject && toggleTask(task.id)]. *)
Definition onClickTask (task : Task.t) (tasks : list Task.t) : list Task.t :=
  let isResources := bool_decide (Task.category task = Resources) in
  if negb isResources && negb (isArchivedProject task) then toggleTask (Task.id task) tasks
  else tasks.

(** Modelled from the spec: [onAddTask] is a prop of the component, its
    body (the parent's [addEntry]) is not in DailyView.tsx.  Section 4.5:
    "creates a new Entry with a fresh unique id, completed = false, and the
    supplied fields"; the entry joins the collection (here at its end), and
    carries neither notes nor archived items, which are not among the
    supplied fields. *)
Definition addEntry (fresh_id : string) (args : AddTaskArgs) (tasks : list Task.t) : list Task.t :=
  tasks ++ [Task.mk fresh_id (arg_title args) (arg_category args) (arg_date args) false
                    (arg_metadata args) None None].

(** The operations a user has on the collection of the daily view. *)
Inductive Op : Type :=
| Click (task : Task.t)
| Delete (id : string)
| Add (fresh_id : string) (args : AddTaskArgs).

Definition step (op : Op) (tasks : list Task.t) : list Task.t :=
  match op with
  | Click task => onClickTask task tasks
  | Delete id => deleteTask id tasks
  | Add fresh_id args => addEntry fresh_id args tasks
  end.

(** A sequence of operations, applied in order. *)
Definition run (ops : list Op) (tasks : list Task.t) : list Task.t :=
  foldl (fun ts op => step op ts) tasks ops.

(** Two entries that agree on what an archived project freezes. *)
Definition same_archive (e' e : Task.t) : Prop :=
  Task.id e' = Task.id e
  /\ Task.archivedItems e' = Task.archivedItems e
  /\ Task.notes e' = Task.notes e.

End DailyView.

(** ** ProjectView and ProjectCard (src/unnamed/part_000) *)
Module ProjectView.

(** The callback of [projects.filter] in [activeProjects]. *)
Definition isActive (p : Project.t) : bool :=
  let total := length (Project.items p) in
  if Nat.eqb total 0 then true
  else
    let completed := length (filter (fun i => ProjectItem.completed i = true) (Project.items p)) in
    Nat.ltb completed total || Nat.eqb total 0.

Definition activeProjects (projects : list Project.t) : list Project.t :=
  filter (fun p => isActive p = true) projects.

(** [getProgress]. *)
Definition getProgress (project : Project.t) : Z :=
  let total := length (Project.items project) in
  if Nat.eqb total 0 then 0%Z
  else
    let completed :=
      length (filter (fun i => ProjectItem.completed i = true) (Project.items project)) in
    JSNumber.Math_round
      (JSNumber.mul (JSNumber.div (JSNumber.of_nat completed) (JSNumber.of_nat total)) 100).

(** The spec's words for the same number (section 4.3):
    [round(100 * completedCount / totalCount)] with half-up rounding, on the
    exact quotient; [0] for an empty project. *)
Definition completedCount (project : Project.t) : nat :=
  length (filter (fun i => ProjectItem.completed i = true) (Project.items project)).

Definition totalCount (project : Project.t) : nat := length (Project.items project).

Definition half_up_percent (project : Project.t) : Z :=
  if Nat.eqb (totalCount project) 0 then 0%Z
  else JSNumber.Math_round (JSNumber.exact_percent (completedCount project) (totalCount project)).

(** The spec's formula evaluated as the code evaluates Numbers:
    [Math.round(100 * completedCount / totalCount)], [0] for an empty
    project. *)
Definition progress_as_specified (project : Project.t) : Z :=
  if Nat.eqb (totalCount project) 0 then 0%Z
  else JSNumber.percent_as_specified (completedCount project) (totalCount project).

(** The card's edit form: [editData] holds the three editable fields. *)
Module EditData.
Record t : Type := mk {
  title : string;
  description : string;
  deadline : string
}.
End EditData.

(** [useState({ title: project.title, description: project.description,
    deadline: project.deadline })]. *)
Definition initialEditData (project : Project.t) : EditData.t :=
  EditData.mk (Project.title project) (Project.description project) (Project.deadline project).

(** The three inputs' [onChange]: [setEditData({...editData, field: value})]. *)
Inductive Change : Type :=
| ChangeTitle (value : string)
| ChangeDescription (value : string)
| ChangeDeadline (value : string).

Definition onChange (editData : EditData.t) (ch : Change) : EditData.t :=
  match ch with
  | ChangeTitle v => EditData.mk v (EditData.description editData) (EditData.deadline editData)
  | ChangeDescription v => EditData.mk (EditData.title editData) v (EditData.deadline editData)
  | ChangeDeadline v => EditData.mk (EditData.title editData) (EditData.description editData) v
  end.

(** [{...project, ...editData}]: the project's own fields, then those of
    [editData] over them. *)
Definition spread (project : Project.t) (editData : EditData.t) : Project.t :=
  Project.mk (Project.id project) (EditData.title editData) (EditData.description editData)
             (Project.term project) (EditData.deadline editData) (Project.status project)
             (Project.items project) (Project.slug project).

(** What the save button hands to [onUpdate], after the card was mounted
    with [mounted], the user made [changes], and the card now shows
    [project]. *)
Definition onSave (mounted project : Project.t) (changes : list Change) : Project.t :=
  spread project (foldl onChange (initialEditData mounted) changes).

End ProjectView.

(** ** Sample data for the worked examples *)
Module Samples.

(** A project whose items have the given completion flags, in order. *)
Definition item (n : nat) (done : bool) : ProjectItem.t :=
  ProjectItem.mk ("item-" +:+ pretty n) "step" done None.

Definition project (flags : list bool) : Project.t :=
  Project.mk "p-1" "Launch" "Ship the first release" Mid "2024-06-30" "In Progress"
             (imap item flags) "launch".

(** [done] completed items followed by [pending] open ones. *)
Definition project_of (done pending : nat) : Project.t :=
  project (replicate done true ++ replicate pending false).

(** The host names the platform's parser gives for three addresses; it
    rejects every other text. *)
Definition hostname (text : string) : Completion string :=
  if decide (text = "https://example.com/page") then Normal "example.com"
  else if decide (text = "https://www.example.com/page") then Normal "www.example.com"
  else if decide (text = "https://mywww.example.com/page") then Normal "mywww.example.com"
  else Throw.

(** Every service answers. *)
Definition online : DailyView.Env :=
  DailyView.Build_Env hostname (fun _ => Normal "Example Domain") (fun _ => Normal "example")
                      (fun _ => Normal Areas).

(** The link services fail, the classifier answers. *)
Definition no_summary : DailyView.Env :=
  DailyView.Build_Env hostname (fun _ => Throw) (fun _ => Normal "example")
                      (fun _ => Normal Areas).

(** Every service fails. *)
Definition offline : DailyView.Env :=
  DailyView.Build_Env hostname (fun _ => Throw) (fun _ => Throw) (fun _ => Throw).

(** The form with [text] typed in and [choice] selected, nothing added yet. *)
Definition draft (text : string) (choice : CategoryChoice) : DailyView.State :=
  DailyView.Build_State text choice "2024-01-01" false [].

(** A collection of the daily view: a task, a resource and an archived
    project. *)
Definition task_a : Task.t :=
  Task.mk "t-1" "Write report" Areas "2024-01-01" false None None None.

Definition resource_b : Task.t :=
  Task.mk "t-2" "https://example.com/page" Resources "2024-01-01" false
          (Some (LinkMetadata.mk "Example Domain" "example.com"
                   "https://www.google.com/s2/favicons?domain=example.com&sz=64"
                   "example" false))
          None None.

Definition archive_c : Task.t :=
  Task.mk "t-3" "Launch" Archives "2024-01-01" true None (Some "Ship the first release")
          (Some [item 0 true; item 1 true]).

Definition tasks : list Task.t := [task_a; resource_b; archive_c].

End Samples.

(** ** DailyView: what the board shows *)
Module DailyBoard.

(** [filteredTasks]: the tasks of the selected day. *)
Definition filteredTasks (selectedDate : string) (tasks : list Task.t) : list Task.t :=
  filter (fun task => Task.date task = selectedDate) tasks.

(** [const categories = ['Projects', 'Areas', 'Resources', 'Archives']]. *)
Definition categories : list ParaCategory := [Projects; Areas; Resources; Archives].

(** [catTasks]: the cards of one column. *)
Definition catTasks (cat : ParaCategory) (filteredTasks : list Task.t) : list Task.t :=
  filter (fun t => Task.category t = cat) filteredTasks.

(** The grid: [categories.map(cat => ...)], one column of cards per category. *)
Definition columns (selectedDate : string) (tasks : list Task.t)
    : list (ParaCategory * list Task.t) :=
  (fun cat => (cat, catTasks cat (filteredTasks selectedDate tasks))) <$> categories.

(** The text of a link card: [task.linkMetadata?.displayTitle || task.title]
    (an absent or empty display title is falsy). *)
Definition linkLabel (task : Task.t) : string :=
  match Task.linkMetadata task with
  | Some m =>
      if decide (LinkMetadata.displayTitle m = "") then Task.title task
      else LinkMetadata.displayTitle m
  | None => Task.title task
  end.

End DailyBoard.

(** ** More of JavaScript's strings *)
Module JSStringMore.

(** [s.split(sep)] for a separator of one code unit: the pieces between the
    separators, at least one. *)
Fixpoint split (s : string) (sep : Ascii.ascii) : list string :=
  match s with
  | EmptyString => [EmptyString]
  | String c s' =>
      if decide (c = sep) then EmptyString :: split s' sep
      else match split s' sep with
           | piece :: pieces => String c piece :: pieces
           | [] => [String c EmptyString]
           end
  end.

(** The code unit [','], 0x2C. *)
Definition comma : Ascii.ascii := Ascii.ascii_of_nat 44.

(** [pieces.join(sep)]. *)
Fixpoint join (pieces : list string) (sep : Ascii.ascii) : string :=
  match pieces with
  | [] => EmptyString
  | [piece] => piece
  | piece :: rest => piece +:+ String sep (join rest sep)
  end.

End JSStringMore.

(** ** ProjectView: the handlers (src/unnamed/part_000) *)
Module ProjectHandlers.

(** The form of the "new project" dialog. *)
Record NewProj : Type := {
  title : string;
  description : string;
  term : Term;
  deadline : string;
  initialItems : string
}.

(** One call [onAddProjectItem(projectId, item)]. *)
Record ItemCall : Type := {
  call_projectId : string;
  call_item : ProjectItem.t
}.

(** The component's state, the [projects] it updates through
    [setProjects], the calls it has made to [onAddProjectItem] (oldest
    first), and how many identifiers it has drawn. *)
Record State : Type := {
  showAddModal : bool;
  loadingId : option string;
  newProj : NewProj;
  projects : list Project.t;
  onAddProjectItem_calls : list ItemCall;
  uuids_drawn : nat
}.

(** What the handlers call outside the component: two services of
    geminiService, and the platform's [crypto.randomUUID], whose n-th draw
    is [randomUUID n]. *)
Record Env : Type := {
  generateShortSlug : string -> Completion string;
  breakdownProject : Project.t -> Completion (list string);
  randomUUID : nat -> string
}.

Definition Handler (A : Type) : Type := State -> Completion A * State.

#[local] Instance Handler_ret : MRet Handler := fun A a st => (Normal a, st).
#[local] Instance Handler_bind : MBind Handler :=
  fun A B f m st =>
    match m st with
    | (Normal a, st') => f a st'
    | (Throw, st') => (Throw, st')
    end.

(** [await p]. *)
Definition await {A : Type} (p : Completion A) : Handler A := fun st => (p, st).

(** [list.forEach(f)]. *)
Fixpoint forEach {A : Type} (f : A -> Handler unit) (l : list A) : Handler unit :=
  match l with
  | [] => mret tt
  | x :: l' => f x ;; forEach f l'
  end.

(** [crypto.randomUUID()]. *)
Definition draw (env : Env) : Handler string :=
  fun st => (Normal (randomUUID env (uuids_drawn st)),
             Build_State (showAddModal st) (loadingId st) (newProj st) (projects st)
                         (onAddProjectItem_calls st) (S (uuids_drawn st))).

Definition setProjects (f : list Project.t -> list Project.t) : Handler unit :=
  fun st => (Normal tt,
             Build_State (showAddModal st) (loadingId st) (newProj st) (f (projects st))
                         (onAddProjectItem_calls st) (uuids_drawn st)).

Definition setShowAddModal (b : bool) : Handler unit :=
  fun st => (Normal tt,
             Build_State b (loadingId st) (newProj st) (projects st)
                         (onAddProjectItem_calls st) (uuids_drawn st)).

Definition setNewProj (form : NewProj) : Handler unit :=
  fun st => (Normal tt,
             Build_State (showAddModal st) (loadingId st) form (projects st)
                         (onAddProjectItem_calls st) (uuids_drawn st)).

Definition setLoadingId (id : option string) : Handler unit :=
  fun st => (Normal tt,
             Build_State (showAddModal st) id (newProj st) (projects st)
                         (onAddProjectItem_calls st) (uuids_drawn st)).

Definition onAddProjectItem (projectId : string) (item : ProjectItem.t) : Handler unit :=
  fun st => (Normal tt,
             Build_State (showAddModal st) (loadingId st) (newProj st) (projects st)
                         (onAddProjectItem_calls st ++ [Build_ItemCall projectId item])
                         (uuids_drawn st)).

(** [{ id: crypto.randomUUID(), title, completed: false }] handed to
    [onAddProjectItem]: the body of the three places that add an item. *)
Definition addItem (env : Env) (projectId title : string) : Handler unit :=
  id ← draw env;
  onAddProjectItem projectId (ProjectItem.mk id title false None).

(** The seed titles:
    [newProj.initialItems.split(',').filter(i => i.trim())]. *)
Definition seedTitles (initialItems : string) : list string :=
  filter (fun i => JSString.trim i ≠ "") (JSStringMore.split initialItems JSStringMore.comma).

(** The form after [setNewProj({ title: '', description: '', term: 'Mid',
    deadline: '', initialItems: '' })]. *)
Definition emptyNewProj : NewProj := Build_NewProj "" "" Mid "" "".

(** [addProject]. *)
Definition addProject (env : Env) : Handler unit :=
  fun st =>
    let newProj := newProj st in
    (if decide (JSString.trim (title newProj) = "") then mret tt
     else
       slug ← await (generateShortSlug env (title newProj));
       projId ← draw env;
       let proj :=
         Project.mk projId (title newProj) (description newProj) (term newProj)
                    (deadline newProj) "In Progress" [] slug in
       setProjects (fun prev => proj :: prev) ;;
       forEach (fun title => addItem env projId (JSString.trim title))
               (seedTitles (initialItems newProj)) ;;
       setShowAddModal false ;;
       setNewProj emptyNewProj) st.

(** [handleBreakdown]. *)
Definition handleBreakdown (env : Env) (project : Project.t) : Handler unit :=
  setLoadingId (Some (Project.id project)) ;;
  steps ← await (breakdownProject env project);
  forEach (fun step => addItem env (Project.id project) step) steps ;;
  setLoadingId None.

(** The card's [onAddItem]:
    [(title) => onAddProjectItem(p.id, { id: crypto.randomUUID(), title, completed: false })]. *)
Definition onAddItem (env : Env) (p : Project.t) (title : string) : Handler unit :=
  addItem env (Project.id p) title.

(** The card's [onDelete]:
    [setProjects(prev => prev.filter(proj => proj.id !== p.id))]. *)
Definition onDelete (p : Project.t) (projects : list Project.t) : list Project.t :=
  filter (fun proj => Project.id proj ≠ Project.id p) projects.

(** The [proj] object [addProject] builds from the form, the slug the
    service gave and the identifier it drew. *)
Definition newProject (form : NewProj) (projId slug : string) : Project.t :=
  Project.mk projId (title form) (description form) (term form) (deadline form)
             "In Progress" [] slug.

(** The state a successful [addProject] ends in: the project first, the
    dialog closed, the form emptied, [calls] made and [n] identifiers drawn. *)
Definition projectAdded (st : State) (proj : Project.t) (calls : list ItemCall) (n : nat)
    : State :=
  Build_State false (loadingId st) emptyNewProj (proj :: projects st)
              (onAddProjectItem_calls st ++ calls) (uuids_drawn st + n).

(** The calls that add [titles] to project [projectId], drawing the
    identifiers from the [k]-th on. *)
Definition itemCalls (env : Env) (projectId : string) (k : nat) (titles : list string)
    : list ItemCall :=
  imap (fun i title =>
          Build_ItemCall projectId (ProjectItem.mk (randomUUID env (k + i)) title false None))
       titles.

End ProjectHandlers.

(** ** ProjectCard: the card's own state (src/unnamed/part_000) *)
Module ProjectCard.
Import ProjectView.

Record State : Type := {
  newItemTitle : string;
  isEditing : bool;
  editData : EditData.t
}.

(** The three [useState] of a card mounted with [project]. *)
Definition mount (project : Project.t) : State :=
  Build_State "" false (initialEditData project).

(** What the user does on a card.  The pencil and the add-item form exist
    while the card is not being edited, the three inputs and the two
    buttons of the edit form while it is. *)
Inductive Event : Type :=
| ClickPencil
| Input (ch : Change)
| ClickSave
| ClickCancel
| TypeNewItem (text : string)
| SubmitNewItem.

(** The props a card calls. *)
Inductive Output : Type :=
| OnUpdate (updated : Project.t)
| OnAddItem (title : string).

(** One event on the card showing [project]: the state after it and the
    calls it makes.  An event of a control that is not rendered leaves the
    card as it is. *)
Definition step (project : Project.t) (st : State) (ev : Event) : State * list Output :=
  match ev, isEditing st with
  | ClickPencil, false => (Build_State (newItemTitle st) true (editData st), [])
  | Input ch, true =>
      (Build_State (newItemTitle st) true (onChange (editData st) ch), [])
  | ClickSave, true =>
      (Build_State (newItemTitle st) false (editData st),
       [OnUpdate (spread project (editData st))])
  | ClickCancel, true => (Build_State (newItemTitle st) false (editData st), [])
  | TypeNewItem text, false => (Build_State text false (editData st), [])
  | SubmitNewItem, false =>
      if decide (JSString.trim (newItemTitle st) = "") then (st, [])
      else (Build_State "" false (editData st), [OnAddItem (newItemTitle st)])
  | _, _ => (st, [])
  end.

(** A sequence of events on a card that keeps showing [project]. *)
Fixpoint steps (project : Project.t) (st : State) (evs : list Event) : State * list Output :=
  match evs with
  | [] => (st, [])
  | ev :: evs' =>
      let '(st1, out1) := step project st ev in
      let '(st2, out2) := steps project st1 evs' in
      (st2, out1 ++ out2)
  end.

End ProjectCard.

(** ** Sample data of the project view *)
Module HandlerSamples.
Import ProjectHandlers.

(** The n-th identifier the platform hands out. *)
Definition uuid (n : nat) : string := "uuid-" +:+ pretty n.

(** Both services answer. *)
Definition services : Env :=
  Build_Env (fun _ => Normal "launch") (fun _ => Normal ["Plan"; "Build"; "Ship"]) uuid.

(** Both services fail. *)
Definition down : Env := Build_Env (fun _ => Throw) (fun _ => Throw) uuid.

(** A second project, with an id of its own. *)
Definition backlog : Project.t :=
  Project.mk "p-2" "Backlog" "" Long "" "In Progress" [Samples.item 0 true] "backlog".

(** The dialog open with a title and seed items typed in, one project
    listed. *)
Definition dialog (title initialItems : string) : State :=
  Build_State true None (Build_NewProj title "Ship the first release" Long "2024-06-30" initialItems)
              [Samples.project [true; false]] [] 0.

End HandlerSamples.

(** ** DailyView: the form over time (src/components/DailyView.tsx) *)
Module DailyForm.
Import DailyView.

(** What the user does on the form: type in the text input, press a
    category button, pick a date, submit.  A submission carries what the
    services answer at that moment. *)
Inductive Event : Type :=
| TypeText (text : string)
| PickCategory (cat : ParaCategory)
| PickDate (date : string)
| Submit (answers : Env).

(** [setManualCategory(cat)] of a category button. *)
Definition setManualCategory (cat : ParaCategory) (st : State) : State :=
  Build_State (newTaskTitle st) (Chosen cat) (selectedDate st) (isAiLoading st)
              (onAddTask_calls st).

(** [setSelectedDate(e.target.value)] of the date input. *)
Definition setSelectedDate (date : string) (st : State) : State :=
  Build_State (newTaskTitle st) (manualCategory st) date (isAiLoading st)
              (onAddTask_calls st).

(** One event.  The text input and the submit button carry
    [disabled={isAiLoading}]: while the flag is set the text cannot be
    changed and the form cannot be submitted.  The category buttons and the
    date input are always enabled. *)
Definition step (st : State) (ev : Event) : State :=
  match ev with
  | TypeText text => if isAiLoading st then st else (setNewTaskTitle text st).2
  | PickCategory cat => setManualCategory cat st
  | PickDate date => setSelectedDate date st
  | Submit answers => if isAiLoading st then st else (handleAddTask answers st).2
  end.

Definition run (st : State) (evs : list Event) : State := foldl step st evs.

(** The number of submissions among the events. *)
Definition isSubmit (ev : Event) : bool :=
  match ev with Submit _ => true | _ => false end.

Definition submissions (evs : list Event) : nat :=
  length (filter (fun ev => isSubmit ev = true) evs).

End DailyForm.

(** * Facts about the number model *)
Module NumberFacts.
Import JSNumber.
Local Open Scope Q_scope.

(** Rounding depends on the value of a rational, not on its fraction. *)
Lemma rne_comp : Proper (Qeq ==> eq) rne.
Proof.
  intros s s' Hs. unfold rne.
  rewrite (Qfloor_comp _ _ Hs).
  assert (s - inject_Z (Qfloor s') == s' - inject_Z (Qfloor s')) as -> by (by rewrite Hs).
  done.
Qed.

Lemma round64_comp : Proper (Qeq ==> eq) round64.
Proof. intros x y Hxy. unfold round64. by rewrite (Qred_complete _ _ Hxy). Qed.

#[global] Existing Instance rne_comp.
#[global] Existing Instance round64_comp.

Lemma inject_Z_minus (a b : Z) : inject_Z (a - b) == inject_Z a - inject_Z b.
Proof. unfold Z.sub. rewrite inject_Z_plus, inject_Z_opp. ring. Qed.

Lemma Qfloor_ge (q : Q) (k : Z) : inject_Z k <= q -> (k <= Qfloor q)%Z.
Proof.
  intros H. pose proof (Qlt_floor q) as Hq.
  assert (inject_Z k < inject_Z (Qfloor q + 1)) as Hlt by lra.
  rewrite <- Zlt_Qlt in Hlt. lia.
Qed.

Lemma Qfloor_lt (q : Q) (k : Z) : q < inject_Z k -> (Qfloor q < k)%Z.
Proof.
  intros H. pose proof (Qfloor_le q) as Hq.
  assert (inject_Z (Qfloor q) < inject_Z k) as Hlt by lra.
  by rewrite <- Zlt_Qlt in Hlt.
Qed.

Lemma Qfloor_unique (q : Q) (k : Z) :
  inject_Z k <= q -> q < inject_Z k + 1 -> Qfloor q = k.
Proof.
  intros H1 H2. pose proof (Qfloor_ge q k H1).
  assert (Qfloor q < k + 1)%Z; [| lia].
  apply Qfloor_lt. rewrite inject_Z_plus. by change (inject_Z 1) with 1.
Qed.

(** [rne] moves its argument by at most one half. *)
Lemma rne_close (s : Q) : Qabs (inject_Z (rne s) - s) <= 1 # 2.
Proof.
  unfold rne.
  pose proof (Qfloor_le s) as Hlo. pose proof (Qlt_floor s) as Hhi.
  rewrite inject_Z_plus in Hhi. change (inject_Z 1) with 1 in Hhi.
  apply Qabs_Qle_condition.
  destruct (Qcompare (s - inject_Z (Qfloor s)) (1 # 2)) eqn:Hc.
  - apply Qeq_alt in Hc.
    destruct (Z.even (Qfloor s)); rewrite ?inject_Z_plus; change (inject_Z 1) with 1; split; lra.
  - apply Qlt_alt in Hc. split; lra.
  - apply Qgt_alt in Hc. rewrite inject_Z_plus. change (inject_Z 1) with 1. split; lra.
Qed.

Lemma rne_nonneg (s : Q) : 0 <= s -> (0 <= rne s)%Z.
Proof.
  intros Hs. unfold rne.
  assert (0 <= Qfloor s)%Z as Hf by (change 0%Z with (Qfloor 0); by apply Qfloor_resp_le).
  destruct (Qcompare _ _); [destruct (Z.even _) | |]; lia.
Qed.

Lemma Qpower2_pos (e : Z) : 0 < 2 ^ e.
Proof. by apply Qpower_0_lt. Qed.

Lemma Qpower2_Z (k : Z) : (0 <= k)%Z -> 2 ^ k == inject_Z (2 ^ k).
Proof. intros Hk. by rewrite Zpower_Qpower. Qed.

(** [ilog2] is the binade of its argument: [2^(ilog2 x) <= x < 2^(ilog2 x + 1)]. *)
Lemma ilog2_le (x : Q) : 0 < x -> 2 ^ ilog2 x <= x.
Proof.
  intros Hx. unfold ilog2.
  destruct (Qle_bool _ x) eqn:Hb; [by apply Qle_bool_iff |].
  destruct x as [n d]. cbn [Qnum Qden] in *.
  assert (0 < n)%Z as Hn by (unfold Qlt in Hx; cbn in Hx; lia).
  set (a := Z.log2 n). set (b := Z.log2 (Z.pos d)).
  assert (0 <= a)%Z by apply Z.log2_nonneg.
  assert (0 <= b)%Z by apply Z.log2_nonneg.
  destruct (Z.log2_spec n Hn) as [Hn1 _].
  destruct (Z.log2_spec (Z.pos d) ltac:(lia)) as [_ Hd2].
  fold a in Hn1. fold b in Hd2.
  replace (a - b - 1)%Z with (a - (b + 1))%Z by lia.
  rewrite Qpower_minus by discriminate.
  rewrite !Qpower2_Z by lia.
  rewrite (Qmake_Qdiv n d).
  assert (0 < inject_Z (2 ^ (b + 1))) by (rewrite <- Qpower2_Z by lia; apply Qpower2_pos).
  assert (0 < inject_Z (Z.pos d)) by (change 0 with (inject_Z 0); rewrite <- Zlt_Qlt; lia).
  apply Qle_shift_div_l; [done |].
  unfold Qdiv. rewrite <- Qmult_assoc, (Qmult_comm (/ _)), Qmult_assoc.
  apply Qle_shift_div_r; [done |].
  rewrite <- !inject_Z_mult. rewrite <- Zle_Qle.
  transitivity (n * Z.pos d)%Z; [| nia].
  apply Z.mul_le_mono_nonneg_r; lia.
Qed.

Lemma ilog2_lt (x : Q) : 0 < x -> x < 2 ^ (ilog2 x + 1).
Proof.
  intros Hx. unfold ilog2.
  destruct (Qle_bool _ x) eqn:Hb.
  - destruct x as [n d]. cbn [Qnum Qden] in *.
    assert (0 < n)%Z as Hn by (unfold Qlt in Hx; cbn in Hx; lia).
    set (a := Z.log2 n). set (b := Z.log2 (Z.pos d)).
    assert (0 <= a)%Z by apply Z.log2_nonneg.
    assert (0 <= b)%Z by apply Z.log2_nonneg.
    destruct (Z.log2_spec n Hn) as [_ Hn2].
    destruct (Z.log2_spec (Z.pos d) ltac:(lia)) as [Hd1 _].
    fold a in Hn2. fold b in Hd1.
    replace (a - b + 1)%Z with (Z.succ a - b)%Z by lia.
    rewrite Qpower_minus by discriminate.
    rewrite !Qpower2_Z by lia.
    rewrite (Qmake_Qdiv n d).
    assert (0 < inject_Z (2 ^ b)) by (rewrite <- Qpower2_Z by lia; apply Qpower2_pos).
    assert (0 < inject_Z (Z.pos d)) by (change 0 with (inject_Z 0); rewrite <- Zlt_Qlt; lia).
    apply Qlt_shift_div_r; [done |].
    unfold Qdiv. rewrite <- Qmult_assoc, (Qmult_comm (/ _)), Qmult_assoc.
    apply Qlt_shift_div_l; [done |].
    rewrite <- !inject_Z_mult. rewrite <- Zlt_Qlt.
    apply Z.lt_le_trans with (2 ^ Z.succ a * 2 ^ b)%Z.
    + apply Z.mul_lt_mono_pos_r; lia.
    + apply Z.mul_le_mono_nonneg_l; lia.
  - replace (Z.log2 (Qnum x) - Z.log2 (Z.pos (Qden x)) - 1 + 1)%Z
      with (Z.log2 (Qnum x) - Z.log2 (Z.pos (Qden x)))%Z by lia.
    apply Qnot_le_lt. intros Hle. apply Qle_bool_iff in Hle. congruence.
Qed.

(** A positive rational rounds to an integer multiple of its ulp, and the
    ulp is at most [2^-52] times the number (or the least subnormal). *)
Lemma round64_pos_eq (x : Q) :
  0 < x ->
  exists e, round64 x == inject_Z (rne (x / 2 ^ e)) * 2 ^ e
            /\ 2 ^ e <= x * (1 # 2 ^ 52) + 2 ^ emin.
Proof.
  intros Hx. unfold round64.
  remember (Qred x) as y eqn:Ey.
  assert (y == x) as Hr by (subst y; apply Qred_correct). clear Ey.
  assert (0 < y) as Hy by (by rewrite Hr).
  assert (0 < Qnum y)%Z as Hn by (unfold Qlt in Hy; cbn in Hy; lia).
  destruct (Qnum y) as [|p|p] eqn:En; try lia.
  exists (ulp_exp y). split.
  - rewrite Qred_correct.
    assert (rne (y / 2 ^ ulp_exp y) = rne (x / 2 ^ ulp_exp y)) as ->; [| done].
    apply rne_comp. apply Qdiv_comp; [done | reflexivity].
  - unfold ulp_exp.
    pose proof (ilog2_le _ Hy) as Hl.
    pose proof (Qpower2_pos emin). pose proof (Qpower2_pos (ilog2 y - 52)) as Hpp.
    assert (2 ^ (ilog2 y - 52) <= x * (1 # 2 ^ 52)) as Hb.
    { rewrite Qpower_minus by discriminate.
      rewrite <- Hr. unfold Qdiv.
      apply Qmult_le_compat_nonneg; split; try lra.
      - apply Qlt_le_weak, Qpower2_pos.
      - done.
      - done. }
    assert (0 <= x * (1 # 2 ^ 52)) by (apply Qmult_le_0_compat; [lra | done]).
    destruct (Z.max_spec (ilog2 y - 52) emin) as [[_ ->]|[_ ->]]; lra.
Qed.

Lemma round64_zero (x : Q) : x == 0 -> round64 x = 0.
Proof.
  intros Hx. unfold round64.
  assert (Qred x = Qred 0) as -> by (by apply Qred_complete). done.
Qed.

Lemma round64_nonneg (x : Q) : 0 <= x -> 0 <= round64 x.
Proof.
  intros Hx. destruct (Qeq_dec x 0) as [E|E]; [by rewrite round64_zero |].
  destruct (round64_pos_eq x) as (e & -> & _); [lra |].
  pose proof (Qpower2_pos e) as He.
  apply Qmult_le_0_compat; [| lra].
  change 0 with (inject_Z 0). rewrite <- Zle_Qle. apply rne_nonneg.
  apply Qle_shift_div_l; [done | lra].
Qed.

(** The error of one rounding: half an ulp, that is [2^-53] relative to the
    number, or [2^-1075] for a subnormal (bounded here by [2^-64]). *)
Lemma round64_error (x : Q) :
  0 <= x ->
  Qabs (round64 x - x) <= x * (1 # 9007199254740992) + (1 # 18446744073709551616).
Proof.
  intros Hx. apply Qabs_Qle_condition.
  destruct (Qeq_dec x 0) as [E|E].
  { rewrite round64_zero by done. split; lra. }
  destruct (round64_pos_eq x) as (e & -> & Hb); [lra |].
  pose proof (Qpower2_pos e) as He.
  pose proof (rne_close (x / 2 ^ e)) as Hc. apply Qabs_Qle_condition in Hc.
  set (r := inject_Z (rne (x / 2 ^ e))) in *. set (P := 2 ^ e) in *.
  assert (x / P * P == x) as Hs by (field; lra).
  assert (2 ^ emin <= (1 # 18446744073709551616) * 2) as Hm by (by vm_compute).
  assert (x * (1 # 2 ^ 52) == x * (1 # 9007199254740992) * 2) as Hu
    by (change (2 ^ 52)%positive with 4503599627370496%positive; field).
  set (s := x / P) in *.
  assert ((r - s) * P <= (1 # 2) * P) as H1 by (apply Qmult_le_compat_r; lra).
  assert (- (1 # 2) * P <= (r - s) * P) as H2 by (apply Qmult_le_compat_r; lra).
  assert ((r - s) * P == r * P - s * P) as H3 by ring.
  clearbody s r P. set (m := 2 ^ emin) in *. set (w := x * (1 # 2 ^ 52)) in *.
  clearbody m w. split; lra.
Qed.

(** What [(c / t) * 100] hands to [Math.round] is within [2^-44] of the
    exact percentage. *)
Lemma percent_error (a : Q) :
  0 <= a <= 1 ->
  Qabs (mul (round64 a) 100 - 100 * a) <= 1 # 17592186044416.
Proof.
  intros [Ha0 Ha1]. unfold mul.
  pose proof (round64_nonneg a Ha0) as Hq0.
  pose proof (round64_error a Ha0) as Hq. apply Qabs_Qle_condition in Hq.
  set (q := round64 a) in *. clearbody q.
  assert (0 <= q * 100) as Hz0 by lra.
  pose proof (round64_error (q * 100) Hz0) as Hy. apply Qabs_Qle_condition in Hy.
  set (y := round64 (q * 100)) in *. clearbody y.
  apply Qabs_Qle_condition. split; lra.
Qed.

(** An integer rounds to itself. *)
Lemma rne_Z (m : Z) : rne (inject_Z m) = m.
Proof.
  unfold rne. rewrite Qfloor_Z.
  assert (Qcompare (inject_Z m - inject_Z m) (1 # 2) = Lt) as ->; [| done].
  apply Qlt_alt. assert (inject_Z m - inject_Z m == 0) as -> by ring. done.
Qed.

(** The rounding of a positive rational, with its exponent. *)
Lemma round64_pos_unfold (x : Q) :
  0 < x ->
  round64 x == inject_Z (rne (x / 2 ^ ulp_exp (Qred x))) * 2 ^ ulp_exp (Qred x).
Proof.
  intros Hx. unfold round64.
  remember (Qred x) as y eqn:Ey.
  assert (y == x) as Hr by (subst y; apply Qred_correct). clear Ey.
  assert (0 < y) as Hy by (by rewrite Hr).
  assert (0 < Qnum y)%Z as Hn by (unfold Qlt in Hy; cbn in Hy; lia).
  destruct (Qnum y) as [|p|p] eqn:En; try lia.
  rewrite Qred_correct.
  assert (rne (y / 2 ^ ulp_exp y) = rne (x / 2 ^ ulp_exp y)) as ->; [| done].
  apply rne_comp. apply Qdiv_comp; [done | reflexivity].
Qed.

(** Half-integers below [2^52] are binary64 values. *)
Lemma round64_exact_half (n : Z) :
  (0 < n < 2 ^ 53)%Z -> round64 (inject_Z n / 2) == inject_Z n / 2.
Proof.
  intros [Hn0 Hn1].
  assert (1 <= inject_Z n) as Hq0 by (change 1 with (inject_Z 1); rewrite <- Zle_Qle; lia).
  assert (inject_Z n < 9007199254740992) as Hq1.
  { change 9007199254740992 with (inject_Z (2 ^ 53)). by rewrite <- Zlt_Qlt. }
  assert (forall k, inject_Z (n * k) == inject_Z n * inject_Z k) as Hmul
    by (intros k; by rewrite inject_Z_mult).
  remember (inject_Z n) as q eqn:Eq. clear Eq.
  remember (q / 2) as h eqn:Eh.
  assert (h == q * (1 # 2)) as Hh by (subst h; field). clear Eh.
  assert (0 < h) as Hx by lra.
  rewrite (round64_pos_unfold h Hx).
  remember (Qred h) as y eqn:Ey.
  assert (y == h) as Hr by (subst y; apply Qred_correct). clear Ey.
  assert (0 < y) as Hy by lra.
  pose proof (ilog2_le y Hy) as Hl1. pose proof (ilog2_lt y Hy) as Hl2.
  unfold ulp_exp. remember (ilog2 y) as i eqn:Ei. clear Ei.
  assert (-1 <= i)%Z as Hi0.
  { assert (2 ^ (-1) < 2 ^ (i + 1)) as Hp.
    { change (2 ^ (-1)) with (1 # 2). remember (2 ^ (i + 1)) as P. lra. }
    apply Qpower_lt_compat_l_inv in Hp; [lia | lra]. }
  assert (i < 52)%Z as Hi1.
  { assert (2 ^ i < 2 ^ 52) as Hp.
    { change (2 ^ 52) with 4503599627370496. remember (2 ^ i) as P. lra. }
    apply Qpower_lt_compat_l_inv in Hp; [lia | lra]. }
  unfold emin. rewrite Z.max_l by lia.
  assert (0 <= 51 - i)%Z as Hj0 by lia.
  assert (2 ^ (i - 52) == / (2 * inject_Z (2 ^ (51 - i)))) as He.
  { replace (i - 52)%Z with (- ((51 - i) + 1))%Z by lia.
    rewrite Qpower_opp, Qpower_plus by lra. rewrite Qpower2_Z by done.
    change (2 ^ 1) with 2. by rewrite Qmult_comm. }
  assert (0 < inject_Z (2 ^ (51 - i))) as Hj.
  { rewrite <- Qpower2_Z by done. apply Qpower2_pos. }
  remember (inject_Z (2 ^ (51 - i))) as J eqn:EJ.
  assert (h / 2 ^ (i - 52) == inject_Z (n * 2 ^ (51 - i))) as Hs.
  { rewrite He, Hmul, <- EJ, Hh. field. lra. }
  rewrite (rne_comp _ _ Hs), rne_Z, He, Hmul, <- EJ, Hh. field. lra.
Qed.

(** Integers below [2^52] are binary64 values. *)
Lemma round64_exact_Z (n : Z) : (0 <= n < 2 ^ 52)%Z -> round64 (inject_Z n) == inject_Z n.
Proof.
  intros [H0 H1]. destruct (Z.eq_dec n 0%Z) as [->|NE]; [done |].
  assert (inject_Z n == inject_Z (2 * n) / 2) as E.
  { rewrite inject_Z_mult. change (inject_Z 2) with 2. field. }
  rewrite (round64_comp _ _ E). rewrite round64_exact_half by lia. by rewrite <- E.
Qed.

End NumberFacts.

(** * [Math.round((c / t) * 100)] against the exact percentage *)
Module PercentFacts.
Import JSNumber NumberFacts.
Local Open Scope Q_scope.

Lemma of_nat_pos (t : nat) : (0 < t)%nat -> 0 < of_nat t.
Proof. intros Ht. unfold of_nat. change 0 with (inject_Z 0). rewrite <- Zlt_Qlt. lia. Qed.

Lemma ratio_bounds (c t : nat) :
  (0 < t)%nat -> (c <= t)%nat -> 0 <= of_nat c / of_nat t <= 1.
Proof.
  intros Ht Hc. pose proof (of_nat_pos t Ht) as Hp.
  assert (0 <= of_nat c)
    by (unfold of_nat; change 0 with (inject_Z 0); rewrite <- Zle_Qle; lia).
  assert (of_nat c <= of_nat t) by (unfold of_nat; rewrite <- Zle_Qle; lia).
  split.
  - apply Qle_shift_div_l; [done | lra].
  - apply Qle_shift_div_r; [done | lra].
Qed.

Lemma exact_percent_alt (c t : nat) :
  (0 < t)%nat -> exact_percent c t == 100 * (of_nat c / of_nat t).
Proof. intros Ht. pose proof (of_nat_pos t Ht). unfold exact_percent. field. lra. Qed.

Lemma percent_close (c t : nat) :
  (0 < t)%nat -> (c <= t)%nat ->
  Qabs (mul (div (of_nat c) (of_nat t)) 100 - exact_percent c t) <= 1 # 17592186044416.
Proof.
  intros Ht Hc. pose proof (percent_error _ (ratio_bounds c t Ht Hc)) as H.
  unfold div. by rewrite exact_percent_alt.
Qed.

Lemma exact_percent_bounds (c t : nat) :
  (0 < t)%nat -> (c <= t)%nat -> 0 <= exact_percent c t <= 100.
Proof.
  intros Ht Hc. pose proof (ratio_bounds c t Ht Hc) as [H0 H1].
  rewrite exact_percent_alt by done. split; lra.
Qed.

(** The result is a percentage, whatever the size of the collection. *)
Lemma percent_range (c t : nat) :
  (0 < t)%nat -> (c <= t)%nat -> (0 <= percent c t <= 100)%Z.
Proof.
  intros Ht Hc.
  pose proof (percent_close c t Ht Hc) as H. apply Qabs_Qle_condition in H.
  pose proof (exact_percent_bounds c t Ht Hc) as Hx.
  pose proof (round64_nonneg (div (of_nat c) (of_nat t) * 100)) as Hy.
  unfold percent, Math_round. fold (mul (div (of_nat c) (of_nat t)) 100) in Hy.
  set (y := mul _ _) in *. clearbody y.
  assert (0 <= y).
  { apply Hy.
    pose proof (round64_nonneg (of_nat c / of_nat t) (proj1 (ratio_bounds c t Ht Hc))).
    unfold div. lra. }
  split.
  - apply Qfloor_ge. change (inject_Z 0) with 0. lra.
  - assert (Qfloor (y + (1 # 2)) < 101)%Z; [| lia].
    apply Qfloor_lt. change (inject_Z 101) with 101. lra.
Qed.

Lemma percent_full (t : nat) : (0 < t)%nat -> percent t t = 100%Z.
Proof.
  intros Ht. pose proof (of_nat_pos t Ht). unfold percent, div.
  assert (of_nat t / of_nat t == 1) as -> by (field; lra).
  by vm_compute.
Qed.

(** A positive multiple of [1 / (2 t)] is at least [2^-33] when [t < 2^32]. *)
Lemma grid_gap (t : nat) (m : Z) :
  (0 < t)%nat -> (Z.of_nat t < 2 ^ 32)%Z ->
  0 < inject_Z m / (2 * of_nat t) -> 1 # 8589934592 <= inject_Z m / (2 * of_nat t).
Proof.
  intros Ht Hlen Hm. pose proof (of_nat_pos t Ht) as Hp.
  assert (0 < inject_Z m) as Hm'.
  { apply Qnot_le_lt. intros Hle. apply (Qlt_not_le _ _ Hm).
    apply Qle_shift_div_r; lra. }
  change 0 with (inject_Z 0) in Hm'. rewrite <- Zlt_Qlt in Hm'.
  assert (1 <= inject_Z m) by (change 1 with (inject_Z 1); rewrite <- Zle_Qle; lia).
  assert (of_nat t <= 4294967296).
  { unfold of_nat. change 4294967296 with (inject_Z (2 ^ 32)).
    rewrite <- Zle_Qle. lia. }
  apply Qle_shift_div_l; [lra |]. lra.
Qed.

(** The code's percentage is the half-up rounding of the exact one, unless
    the exact one is a tie, where it may also be one less. *)
Lemma percent_half_up (c t : nat) :
  (0 < t)%nat -> (c <= t)%nat -> (Z.of_nat t < 2 ^ 32)%Z ->
  (Math_round (exact_percent c t) - 1 <= percent c t <= Math_round (exact_percent c t))%Z
  /\ (~ tie c t -> percent c t = Math_round (exact_percent c t)).
Proof.
  intros Ht Hc Hlen.
  pose proof (percent_close c t Ht Hc) as H. apply Qabs_Qle_condition in H.
  pose proof (of_nat_pos t Ht) as Hp.
  unfold percent. set (y := mul _ _) in *. clearbody y.
  unfold Math_round, tie. set (x := exact_percent c t) in *.
  set (k := Qfloor (x + (1 # 2))).
  pose proof (Qfloor_le (x + (1 # 2))) as Hk1. pose proof (Qlt_floor (x + (1 # 2))) as Hk2.
  fold k in Hk1, Hk2. rewrite inject_Z_plus in Hk2. change (inject_Z 1) with 1 in Hk2.
  assert (inject_Z k + 1 - (x + (1 # 2))
          == inject_Z (2 * Z.of_nat t * (k + 1) - 200 * Z.of_nat c - Z.of_nat t)
             / (2 * of_nat t)) as Hup.
  { unfold x, exact_percent, of_nat.
    rewrite !inject_Z_minus, !inject_Z_mult, inject_Z_plus.
    change (inject_Z 2) with 2. change (inject_Z 200) with 200. change (inject_Z 1) with 1.
    field. unfold of_nat in Hp. lra. }
  assert (x + (1 # 2) - inject_Z k
          == inject_Z (200 * Z.of_nat c + Z.of_nat t - 2 * Z.of_nat t * k)
             / (2 * of_nat t)) as Hlo.
  { unfold x, exact_percent, of_nat.
    rewrite !inject_Z_minus, !inject_Z_plus, !inject_Z_mult.
    change (inject_Z 2) with 2. change (inject_Z 200) with 200.
    field. unfold of_nat in Hp. lra. }
  pose proof (grid_gap t (2 * Z.of_nat t * (k + 1) - 200 * Z.of_nat c - Z.of_nat t) Ht Hlen)
    as Gup.
  rewrite <- Hup in Gup. specialize (Gup ltac:(lra)).
  split.
  - split.
    + assert (k - 1 <= Qfloor (y + (1 # 2)))%Z; [| lia].
      apply Qfloor_ge. rewrite inject_Z_minus. change (inject_Z 1) with 1. lra.
    + assert (Qfloor (y + (1 # 2)) < k + 1)%Z; [| lia].
      apply Qfloor_lt. rewrite inject_Z_plus. change (inject_Z 1) with 1. lra.
  - intros Hnt.
    pose proof (grid_gap t (200 * Z.of_nat c + Z.of_nat t - 2 * Z.of_nat t * k) Ht Hlen) as Glo.
    rewrite <- Hlo in Glo.
    assert (0 < x + (1 # 2) - inject_Z k) as Hpos.
    { apply Qnot_le_lt. intros Hle. apply Hnt. exists (k - 1)%Z.
      rewrite inject_Z_minus. change (inject_Z 1) with 1. lra. }
    specialize (Glo Hpos).
    apply Qfloor_unique; lra.
Qed.

(** The code reports 100 exactly when at least 99.5% of the items are
    completed. *)
Lemma percent_100_iff (c t : nat) :
  (0 < t)%nat -> (c <= t)%nat -> (Z.of_nat t < 2 ^ 32)%Z ->
  percent c t = 100%Z <-> (199 * t <= 200 * c)%nat.
Proof.
  intros Ht Hc Hlen.
  pose proof (percent_close c t Ht Hc) as H. apply Qabs_Qle_condition in H.
  pose proof (of_nat_pos t Ht) as Hp. pose proof (percent_range c t Ht Hc) as Hr.
  split.
  - intros E. apply Nat.nlt_ge. intros Hlt.
    pose proof (grid_gap t (199 * Z.of_nat t - 200 * Z.of_nat c) Ht Hlen) as G.
    assert (inject_Z (199 * Z.of_nat t - 200 * Z.of_nat c) / (2 * of_nat t)
            == (199 # 2) - exact_percent c t) as Hg.
    { unfold exact_percent, of_nat. rewrite inject_Z_minus, !inject_Z_mult.
      change (inject_Z 199) with 199. change (inject_Z 200) with 200.
      field. unfold of_nat in Hp. lra. }
    rewrite Hg in G.
    assert (0 < (199 # 2) - exact_percent c t) as Hpos.
    { rewrite <- Hg. apply Qlt_shift_div_l; [lra |].
      assert (0 < inject_Z (199 * Z.of_nat t - 200 * Z.of_nat c));
        [change 0 with (inject_Z 0); rewrite <- Zlt_Qlt; lia | lra]. }
    specialize (G Hpos).
    assert (percent c t < 100)%Z; [| lia].
    unfold percent, Math_round. apply Qfloor_lt. change (inject_Z 100) with 100. lra.
  - intros Hge. destruct (Nat.eq_dec (199 * t)%nat (200 * c)%nat) as [E|NE].
    + unfold percent, div.
      assert (of_nat c / of_nat t == 199 # 200) as ->; [| by vm_compute].
      assert (of_nat c * 200 == of_nat t * 199) as Hq.
      { unfold of_nat. change 200 with (inject_Z 200). change 199 with (inject_Z 199).
        rewrite <- !inject_Z_mult. apply inject_Z_injective. lia. }
      apply Qmult_inj_r with (z := of_nat t); [lra |].
      assert (of_nat c / of_nat t * of_nat t == of_nat c) as -> by (field; lra). lra.
    + pose proof (grid_gap t (200 * Z.of_nat c - 199 * Z.of_nat t) Ht Hlen) as G.
      assert (inject_Z (200 * Z.of_nat c - 199 * Z.of_nat t) / (2 * of_nat t)
              == exact_percent c t - (199 # 2)) as Hg.
      { unfold exact_percent, of_nat. rewrite inject_Z_minus, !inject_Z_mult.
        change (inject_Z 199) with 199. change (inject_Z 200) with 200.
        field. unfold of_nat in Hp. lra. }
      rewrite Hg in G.
      assert (0 < exact_percent c t - (199 # 2)) as Hpos.
      { rewrite <- Hg. apply Qlt_shift_div_l; [lra |].
        assert (0 < inject_Z (200 * Z.of_nat c - 199 * Z.of_nat t));
          [change 0 with (inject_Z 0); rewrite <- Zlt_Qlt; lia | lra]. }
      specialize (G Hpos).
      assert (100 <= percent c t)%Z; [| lia].
      unfold percent, Math_round. apply Qfloor_ge. change (inject_Z 100) with 100. lra.
Qed.

(** The model of binary64 rounding and the kernel's floats compute the same
    percentage for every collection of at most 200 items. *)
Lemma round64_agrees_with_binary64 : agree_upto 200 = true.
Proof. by vm_compute. Qed.

(** They also compute the same product on operands near the largest array
    length. *)
Lemma round64_agrees_on_large_operands :
  forallb (fun ct => agree_at (fst ct) (snd ct))
    [(123456, 7654321); (1, 4294967295); (4294967294, 4294967295);
     (999999937, 1000000007); (3, 4000000000); (2147483647, 4294967294)]%Z
  = true.
Proof. by vm_compute. Qed.

(** In the spec's order the product is exact, and only the quotient is
    rounded. *)
Lemma percent_as_specified_single_rounding (c t : nat) :
  (0 < t)%nat -> (c <= t)%nat -> (Z.of_nat t < 2 ^ 32)%Z ->
  percent_as_specified c t = Math_round (round64 (exact_percent c t)).
Proof.
  intros Ht Hc Hlen. unfold percent_as_specified, div, mul, exact_percent.
  assert (100 * of_nat c == inject_Z (100 * Z.of_nat c)) as E.
  { unfold of_nat. rewrite inject_Z_mult. reflexivity. }
  rewrite (round64_comp _ _ E).
  assert (round64 (inject_Z (100 * Z.of_nat c)) / of_nat t == 100 * of_nat c / of_nat t) as E2.
  { rewrite round64_exact_Z by lia. by rewrite E. }
  by rewrite (round64_comp _ _ E2).
Qed.

(** A value within [2^-44] of the exact percentage rounds like it, unless
    the exact percentage is a tie. *)
Lemma Math_round_near (c t : nat) (y : Q) :
  (0 < t)%nat -> (c <= t)%nat -> (Z.of_nat t < 2 ^ 32)%Z ->
  Qabs (y - exact_percent c t) <= 1 # 17592186044416 ->
  ~ tie c t ->
  Math_round y = Math_round (exact_percent c t).
Proof.
  intros Ht Hc Hlen H Hnt. apply Qabs_Qle_condition in H.
  pose proof (of_nat_pos t Ht) as Hp.
  unfold Math_round, tie in *. set (x := exact_percent c t) in *.
  set (k := Qfloor (x + (1 # 2))).
  pose proof (Qfloor_le (x + (1 # 2))) as Hk1. pose proof (Qlt_floor (x + (1 # 2))) as Hk2.
  fold k in Hk1, Hk2. rewrite inject_Z_plus in Hk2. change (inject_Z 1) with 1 in Hk2.
  assert (inject_Z k + 1 - (x + (1 # 2))
          == inject_Z (2 * Z.of_nat t * (k + 1) - 200 * Z.of_nat c - Z.of_nat t)
             / (2 * of_nat t)) as Hup.
  { unfold x, exact_percent, of_nat.
    rewrite !inject_Z_minus, !inject_Z_mult, inject_Z_plus.
    change (inject_Z 2) with 2. change (inject_Z 200) with 200. change (inject_Z 1) with 1.
    field. unfold of_nat in Hp. lra. }
  assert (x + (1 # 2) - inject_Z k
          == inject_Z (200 * Z.of_nat c + Z.of_nat t - 2 * Z.of_nat t * k)
             / (2 * of_nat t)) as Hlo.
  { unfold x, exact_percent, of_nat.
    rewrite !inject_Z_minus, !inject_Z_plus, !inject_Z_mult.
    change (inject_Z 2) with 2. change (inject_Z 200) with 200.
    field. unfold of_nat in Hp. lra. }
  pose proof (grid_gap t (2 * Z.of_nat t * (k + 1) - 200 * Z.of_nat c - Z.of_nat t) Ht Hlen)
    as Gup.
  rewrite <- Hup in Gup. specialize (Gup ltac:(lra)).
  pose proof (grid_gap t (200 * Z.of_nat c + Z.of_nat t - 2 * Z.of_nat t * k) Ht Hlen) as Glo.
  rewrite <- Hlo in Glo.
  assert (0 < x + (1 # 2) - inject_Z k) as Hpos.
  { apply Qnot_le_lt. intros Hle. apply Hnt. exists (k - 1)%Z.
    rewrite inject_Z_minus. change (inject_Z 1) with 1. lra. }
  specialize (Glo Hpos).
  apply Qfloor_unique; lra.
Qed.

(** Computed in the spec's order, [Math.round(100 * c / t)] is the half-up
    rounding of the exact percentage, ties included. *)
Lemma percent_as_specified_half_up (c t : nat) :
  (0 < t)%nat -> (c <= t)%nat -> (Z.of_nat t < 2 ^ 32)%Z ->
  percent_as_specified c t = Math_round (exact_percent c t).
Proof.
  intros Ht Hc Hlen. rewrite percent_as_specified_single_rounding by done.
  pose proof (exact_percent_bounds c t Ht Hc) as [Hx0 Hx1].
  remember (exact_percent c t) as x eqn:Ex.
  pose proof (Qfloor_le x) as Hf1. pose proof (Qlt_floor x) as Hf2.
  rewrite inject_Z_plus in Hf2. change (inject_Z 1) with 1 in Hf2.
  remember (Qfloor x) as k eqn:Ek.
  destruct (Qeq_dec x (inject_Z k + (1 # 2))) as [E|NE].
  - assert (x == inject_Z (2 * k + 1) / 2) as E2.
    { rewrite E, inject_Z_plus, inject_Z_mult. change (inject_Z 2) with 2.
      change (inject_Z 1) with 1. field. }
    assert (0 <= k < 100)%Z as Hk.
    { split.
      - rewrite Ek. apply Qfloor_ge. by change (inject_Z 0) with 0.
      - rewrite Zlt_Qlt. change (inject_Z 100) with 100.
        remember (inject_Z k) as K. lra. }
    unfold Math_round. apply Qfloor_comp.
    rewrite (round64_comp _ _ E2), round64_exact_half by lia. by rewrite <- E2.
  - subst x. apply (Math_round_near c t); [done | done | done | |].
    + remember (exact_percent c t) as x eqn:Ex.
      pose proof (round64_error x Hx0) as He.
      apply Qabs_Qle_condition in He. apply Qabs_Qle_condition.
      remember (round64 x) as y. split; lra.
    + intros [k' Hk']. apply NE.
      assert (k = k') as ->; [| done].
      rewrite Ek. apply Qfloor_unique.
      * remember (exact_percent c t) as x. remember (inject_Z k') as K. lra.
      * remember (exact_percent c t) as x. remember (inject_Z k') as K. lra.
Qed.

End PercentFacts.

(** * ProjectView: visibility, progress and the edit form *)
Module ProjectFacts.
Import ProjectView.

Lemma filter_all_length {A : Type} (P : A -> Prop) `{!forall x, Decision (P x)} (l : list A) :
  length (filter P l) = length l <-> Forall P l.
Proof.
  induction l as [|x l IH]; [by split |].
  rewrite filter_cons. destruct (decide (P x)) as [HP|HP]; cbn [length].
  - rewrite Forall_cons. split.
    + intros E. split; [done |]. apply IH. lia.
    + intros [_ HF]. f_equal. by apply IH.
  - split.
    + intros E. pose proof (length_filter P l). lia.
    + intros HF. by apply Forall_cons in HF as [? _].
Qed.

Lemma completedCount_le (p : Project.t) : completedCount p <= totalCount p.
Proof. apply length_filter. Qed.

Lemma completedCount_flags (p : Project.t) :
  completedCount p
  = length (filter (fun b => b = true) (ProjectItem.completed <$> Project.items p)).
Proof.
  unfold completedCount. induction (Project.items p) as [|i l IH]; [done |].
  rewrite fmap_cons, !filter_cons.
  destruct (decide (ProjectItem.completed i = true)); cbn [length]; by rewrite IH.
Qed.

Lemma totalCount_flags (p : Project.t) :
  totalCount p = length (ProjectItem.completed <$> Project.items p).
Proof. unfold totalCount. by rewrite length_fmap. Qed.

Lemma isActive_iff (p : Project.t) :
  isActive p = true <-> totalCount p = 0 \/ completedCount p < totalCount p.
Proof.
  unfold isActive. fold (totalCount p). fold (completedCount p).
  destruct (Nat.eqb_spec (totalCount p) 0) as [E|NE]; [by intuition |].
  rewrite orb_false_r, Nat.ltb_lt. intuition lia.
Qed.

(** [getProgress] is [Math.round((completed / total) * 100)] on the two
    counts. *)
Lemma getProgress_percent (p : Project.t) :
  totalCount p <> 0 -> getProgress p = JSNumber.percent (completedCount p) (totalCount p).
Proof.
  intros NE. unfold getProgress. fold (totalCount p).
  by destruct (Nat.eqb_spec (totalCount p) 0).
Qed.

Lemma getProgress_empty (p : Project.t) : Project.items p = [] -> getProgress p = 0%Z.
Proof. intros E. unfold getProgress. by rewrite E. Qed.

Lemma half_up_percent_nonempty (p : Project.t) :
  totalCount p <> 0 ->
  half_up_percent p
  = JSNumber.Math_round (JSNumber.exact_percent (completedCount p) (totalCount p)).
Proof. intros NE. unfold half_up_percent. by destruct (Nat.eqb_spec (totalCount p) 0). Qed.

Lemma totalCount_nonempty (p : Project.t) : Project.items p <> [] -> totalCount p <> 0.
Proof. unfold totalCount. by destruct (Project.items p). Qed.

Lemma forallb_seq2 (f : nat -> nat -> bool) (n : nat) :
  forallb (fun t => forallb (fun c => f c t) (seq 0 (S t))) (seq 1 n) = true ->
  forall c t, 0 < t <= n -> c <= t -> f c t = true.
Proof.
  intros H c t Ht Hc.
  rewrite forallb_forall in H. specialize (H t ltac:(apply in_seq; lia)).
  rewrite forallb_forall in H. apply H, in_seq. lia.
Qed.

(** Below 40 items no tie is rounded down. *)
Lemma half_up_agrees_below_40 :
  forallb (fun t => forallb (fun c => JSNumber.half_up_agrees c t) (seq 0 (S t))) (seq 1 39) = true.
Proof. by vm_compute. Qed.

Lemma percent_exact_small (c t : nat) :
  0 < t < 40 -> c <= t ->
  JSNumber.percent c t = JSNumber.Math_round (JSNumber.exact_percent c t).
Proof.
  intros Ht Hc. apply Z.eqb_eq.
  apply (forallb_seq2 JSNumber.half_up_agrees 39 half_up_agrees_below_40); lia.
Qed.

(** C2. A project is in the active list if and only if it is one of the
    projects and has no item, or fewer completed items than items: items
    [done, done] keep it out, items [done, pending] keep it in. *)
Theorem C2_active_projects (projects : list Project.t) :
  (forall p, p ∈ activeProjects projects
             <-> p ∈ projects /\ (totalCount p = 0 \/ completedCount p < totalCount p))
  /\ (forall p, ProjectItem.completed <$> Project.items p = [true; true] ->
                p ∉ activeProjects projects)
  /\ (forall p, p ∈ projects ->
                ProjectItem.completed <$> Project.items p = [true; false] ->
                p ∈ activeProjects projects).
Proof.
  assert (forall p, p ∈ activeProjects projects
                    <-> p ∈ projects /\ (totalCount p = 0 \/ completedCount p < totalCount p))
    as Hiff.
  { intros p. unfold activeProjects. rewrite list_elem_of_filter, isActive_iff. tauto. }
  split; [done |]. split.
  - intros p Hflags Hin. apply Hiff in Hin as [_ Hc].
    rewrite completedCount_flags, totalCount_flags, Hflags in Hc. vm_compute in Hc. lia.
  - intros p Hin Hflags. apply Hiff. split; [done |]. right.
    rewrite completedCount_flags, totalCount_flags, Hflags. vm_compute. lia.
Qed.

Lemma C2_active_projects_witness :
  Samples.project [true; false]
    ∈ activeProjects [Samples.project [true; true]; Samples.project [true; false]]
  /\ Samples.project [true; true]
    ∉ activeProjects [Samples.project [true; true]; Samples.project [true; false]].
Proof.
  pose proof (C2_active_projects [Samples.project [true; true]; Samples.project [true; false]])
    as (_ & Hout & Hin).
  split.
  - apply Hin; [| reflexivity]. apply list_elem_of_In. right. left. reflexivity.
  - apply Hout. reflexivity.
Defined.

(** How far [getProgress] is from the half-up rounding.  An empty project
    has progress 0; otherwise the progress is [Math.round] of the binary64
    product [(completed / total) * 100].  For a collection an array can
    hold this is the half-up rounding of the exact [100 * completed / total]
    or one less; it is the half-up rounding whenever the exact value is no
    tie, and for every project of fewer than 40 items.  One of three
    completed gives 33, two of three 67. *)
Theorem getProgress_rounding (p : Project.t) :
  (Project.items p = [] -> getProgress p = 0%Z)
  /\ (Project.items p <> [] ->
      getProgress p
      = JSNumber.Math_round
          (JSNumber.mul (JSNumber.div (JSNumber.of_nat (completedCount p))
                                      (JSNumber.of_nat (totalCount p))) 100))
  /\ (Project.items p <> [] -> (Z.of_nat (totalCount p) < 2 ^ 32)%Z ->
      (half_up_percent p - 1 <= getProgress p <= half_up_percent p)%Z
      /\ (~ JSNumber.tie (completedCount p) (totalCount p) ->
          getProgress p = half_up_percent p))
  /\ (totalCount p < 40 -> getProgress p = half_up_percent p)
  /\ (totalCount p = 3 -> completedCount p = 1 -> getProgress p = 33%Z)
  /\ (totalCount p = 3 -> completedCount p = 2 -> getProgress p = 67%Z).
Proof.
  split; [apply getProgress_empty |].
  split.
  { intros NE. by rewrite getProgress_percent by by apply totalCount_nonempty. }
  split.
  { intros NE Hlen. apply totalCount_nonempty in NE.
    rewrite getProgress_percent, half_up_percent_nonempty by done.
    apply PercentFacts.percent_half_up; [lia | apply completedCount_le | done]. }
  split.
  { intros Hlt. destruct (Nat.eq_dec (totalCount p) 0) as [E|NE].
    - unfold getProgress, half_up_percent. fold (totalCount p). by rewrite E.
    - rewrite getProgress_percent, half_up_percent_nonempty by done.
      apply percent_exact_small; [lia | apply completedCount_le]. }
  split.
  - intros Ht Hc. rewrite getProgress_percent, Ht, Hc by lia. by vm_compute.
  - intros Ht Hc. rewrite getProgress_percent, Ht, Hc by lia. by vm_compute.
Qed.

Lemma getProgress_rounding_examples :
  getProgress (Samples.project [true; false; false]) = 33%Z
  /\ getProgress (Samples.project [true; false; true]) = 67%Z
  /\ getProgress (Samples.project [true; false; true; true; false; true; false])
     = half_up_percent (Samples.project [true; false; true; true; false; true; false])
  /\ getProgress (Samples.project [true; false; false])
     = half_up_percent (Samples.project [true; false; false]).
Proof.
  split; [| split; [| split]]; cycle 3.
  { destruct (getProgress_rounding (Samples.project [true; false; false]))
      as (_ & _ & Hgen & _).
    apply Hgen; [discriminate | reflexivity |].
    change (completedCount (Samples.project [true; false; false])) with 1.
    change (totalCount (Samples.project [true; false; false])) with 3.
    intros [k Hk]. unfold JSNumber.exact_percent, JSNumber.of_nat in Hk.
    change (inject_Z (Z.of_nat 1)) with 1%Q in Hk.
    change (inject_Z (Z.of_nat 3)) with 3%Q in Hk.
    assert (100 * 1 / 3 == 100 # 3)%Q as Hq by reflexivity. rewrite Hq in Hk.
    assert (inject_Z (6 * k + 3) == inject_Z 200)%Q as E.
    { rewrite inject_Z_plus, inject_Z_mult.
      change (inject_Z 6) with 6%Q. change (inject_Z 3) with 3%Q.
      change (inject_Z 200) with 200%Q. lra. }
    apply (proj1 (inject_Z_injective _ _)) in E. lia. }
  - destruct (getProgress_rounding (Samples.project [true; false; false]))
      as (_ & _ & _ & _ & H33 & _).
    apply H33; reflexivity.
  - destruct (getProgress_rounding (Samples.project [true; false; true]))
      as (_ & _ & _ & _ & _ & H67).
    apply H67; reflexivity.
  - destruct (getProgress_rounding
                (Samples.project [true; false; true; true; false; true; false]))
      as (_ & _ & _ & Hsmall & _).
    apply Hsmall. vm_compute. lia.
Defined.

(** The spec's formula, evaluated in the order it is written, is the
    half-up rounding of the exact percentage for every project an array
    can hold. *)
Lemma progress_as_specified_half_up (p : Project.t) :
  (Z.of_nat (totalCount p) < 2 ^ 32)%Z -> progress_as_specified p = half_up_percent p.
Proof.
  intros Hlen. unfold progress_as_specified, half_up_percent.
  destruct (Nat.eqb_spec (totalCount p) 0) as [E|NE]; [done |].
  apply PercentFacts.percent_as_specified_half_up; [lia | apply completedCount_le | done].
Qed.

(** C3. The claim fails on the code: with 23 of 40 items completed the
    claimed progress [round(100 * 23 / 40)] is 58 (the exact percentage is
    57.5, and half-up rounding gives 58; evaluated in the order written,
    in the code's own binary64 arithmetic, it is 58 as well), but
    [getProgress] divides first and multiplies by 100 afterwards: [23 / 40]
    rounded to binary64 and multiplied by 100 is 57.49999999999999, and the
    code returns 57.  The kernel's floats give the same two numbers.  The
    two examples of the claim hold: 1 of 3 gives 33 and 2 of 3 gives 67, and
    an empty project gives 0. *)
Theorem C3_progress_operation_order :
  getProgress (Samples.project_of 23 17) = 57%Z
  /\ half_up_percent (Samples.project_of 23 17) = 58%Z
  /\ progress_as_specified (Samples.project_of 23 17) = 58%Z
  /\ JSNumber.percent64 23 40 = Some 57%Z
  /\ JSNumber.percent64_as_specified 23 40 = Some 58%Z
  /\ getProgress (Samples.project_of 1 2) = 33%Z
  /\ getProgress (Samples.project_of 2 1) = 67%Z
  /\ getProgress (Samples.project_of 0 0) = 0%Z.
Proof. repeat split; by vm_compute. Qed.

(** C4 (as amended). The progress of a non-empty project lies in [0, 100];
    it is 100 when every item is completed; and it is 100 exactly when at
    least 99.5% of the items are completed, which for fewer than 200 items
    means every item. *)
Theorem C4_progress_range (p : Project.t) :
  Project.items p <> [] ->
  (0 <= getProgress p <= 100)%Z
  /\ (Forall (fun i => ProjectItem.completed i = true) (Project.items p) ->
      getProgress p = 100%Z)
  /\ ((Z.of_nat (totalCount p) < 2 ^ 32)%Z ->
      (getProgress p = 100%Z <-> 199 * totalCount p <= 200 * completedCount p))
  /\ (totalCount p < 200 -> getProgress p = 100%Z ->
      Forall (fun i => ProjectItem.completed i = true) (Project.items p)).
Proof.
  intros NE. apply totalCount_nonempty in NE.
  pose proof (completedCount_le p) as Hle.
  rewrite getProgress_percent by done.
  split; [apply PercentFacts.percent_range; [lia | done] |].
  split.
  { intros HF. apply (proj2 (filter_all_length _ _)) in HF. fold (completedCount p) in HF.
    rewrite HF. apply PercentFacts.percent_full. unfold totalCount in NE. lia. }
  split.
  { intros Hlen. apply PercentFacts.percent_100_iff; [lia | done | done]. }
  intros Hlt E. apply (proj1 (filter_all_length _ _)).
  fold (completedCount p). fold (totalCount p).
  apply PercentFacts.percent_100_iff in E; [lia | lia | done | lia].
Qed.

Lemma C4_progress_range_witness :
  (0 <= getProgress (Samples.project [true; false]) <= 100)%Z
  /\ getProgress (Samples.project [true; true]) = 100%Z
  /\ getProgress (Samples.project [true; false]) <> 100%Z.
Proof.
  split; [| split].
  - apply (C4_progress_range (Samples.project [true; false])). discriminate.
  - destruct (C4_progress_range (Samples.project [true; true])) as (_ & Hall & _).
    + discriminate.
    + apply Hall. repeat constructor.
  - destruct (C4_progress_range (Samples.project [true; false])) as (_ & _ & Hiff & _).
    + discriminate.
    + intros E. apply Hiff in E; [| reflexivity].
      change (199 * 2 <= 200 * 1) in E. lia.
Defined.

(** C4 as the spec states it fails: with 199 of 200 items completed the
    percentage is 99.5, [Math.round] gives 100, and one item is still
    open. *)
Lemma C4_counterexample :
  getProgress (Samples.project_of 199 1) = 100%Z
  /\ ~ Forall (fun i => ProjectItem.completed i = true)
              (Project.items (Samples.project_of 199 1))
  /\ JSNumber.percent64 199 200 = Some 100%Z.
Proof.
  split; [by vm_compute |]. split; [| by vm_compute].
  intros HF. apply (proj2 (filter_all_length _ _)) in HF. vm_compute in HF. discriminate.
Qed.

(** C8. Saving the edit form hands [onUpdate] the project with the form's
    title, description and deadline, and with the id, slug, items, term and
    status of the project as it stands; saving an untouched form changes
    nothing. *)
Theorem C8_edit_merges_editable_fields (mounted project : Project.t) (changes : list Change) :
  let editData := foldl onChange (initialEditData mounted) changes in
  let updated := onSave mounted project changes in
  (Project.title updated = EditData.title editData
   /\ Project.description updated = EditData.description editData
   /\ Project.deadline updated = EditData.deadline editData)
  /\ (Project.id updated = Project.id project
      /\ Project.slug updated = Project.slug project
      /\ Project.items updated = Project.items project
      /\ Project.term updated = Project.term project
      /\ Project.status updated = Project.status project)
  /\ onSave project project [] = project.
Proof.
  cbn zeta. unfold onSave, spread. cbn [Project.title Project.description Project.deadline
    Project.id Project.slug Project.items Project.term Project.status].
  repeat split. by destruct project.
Qed.

End ProjectFacts.

(** * Strings *)
Module StringFacts.
Import JSString.

Lemma rev_app_empty (s1 s2 : string) : String.rev_app s1 s2 = "" <-> s1 = "" /\ s2 = "".
Proof.
  revert s2. induction s1 as [|a s1 IH]; intros s2; cbn; [by intuition |].
  rewrite IH. by intuition.
Qed.

Lemma isBlank_rev_app (s1 s2 : string) :
  isBlank (String.rev_app s1 s2) = isBlank s1 && isBlank s2.
Proof.
  revert s2. induction s1 as [|a s1 IH]; intros s2; cbn; [done |].
  rewrite IH. cbn. by destruct (isWhiteSpace a), (isBlank s1), (isBlank s2).
Qed.

Lemma trimStart_empty (s : string) : trimStart s = "" <-> isBlank s = true.
Proof.
  induction s as [|a s IH]; cbn; [done |].
  destruct (isWhiteSpace a); cbn; [done |]. split; discriminate.
Qed.

Lemma isBlank_trimStart (s : string) : isBlank (trimStart s) = isBlank s.
Proof. induction s as [|a s IH]; cbn; [done |]. by destruct (isWhiteSpace a) eqn:E; cbn; rewrite ?E. Qed.

(** [s.trim()] is the empty string exactly when [s] is white space only. *)
Lemma trim_empty (s : string) : trim s = "" <-> isBlank s = true.
Proof.
  unfold trim, trimEnd, String.rev.
  rewrite rev_app_empty, trimStart_empty, isBlank_rev_app, andb_true_r, isBlank_trimStart.
  by intuition.
Qed.

Lemma prefix_app (p s : string) :
  String.prefix p s = true <-> exists rest, s = p +:+ rest.
Proof.
  revert s. induction p as [|a p IH]; intros [|b s]; cbn.
  - split; [by exists "" | done].
  - split; [by exists (String b s) | done].
  - split; [done | by intros [rest ?]].
  - destruct (Ascii.ascii_dec a b) as [->|NE].
    + rewrite IH. split; intros [rest E]; exists rest.
      * rewrite E. reflexivity.
      * change (String b s = String b (p +:+ rest)) in E. congruence.
    + split; [done |]. intros [rest E].
      change (String b s = String a (p +:+ rest)) in E. congruence.
Qed.

(** A leading [www.] is stripped. *)
Lemma replace_leading_www (rest : string) : replace ("www." +:+ rest) "www." "" = rest.
Proof. by destruct rest. Qed.

End StringFacts.

(** * DailyView: adding an entry *)
Module AddTaskFacts.
Import DailyView StringFacts.

(** A text that starts with [http] is not blank. *)
Lemma isUrl_not_blank (text : string) : isUrl text = true -> JSString.trim text <> "".
Proof.
  intros [rest ->]%prefix_app. rewrite trim_empty. done.
Qed.

Lemma handleAddTask_blank (env : Env) (st : State) :
  JSString.trim (newTaskTitle st) = "" -> handleAddTask env st = (Normal tt, st).
Proof. intros E. run_handler. by destruct (decide _). Qed.

(** The link branch: the text starts with [http], parses, and both services
    answer. *)
Lemma handleAddTask_linked (env : Env) (st : State) (host title slug : string) :
  JSString.trim (newTaskTitle st) <> "" ->
  isUrl (newTaskTitle st) = true ->
  URL_hostname env (newTaskTitle st) = Normal host ->
  summarizeLink env (newTaskTitle st) = Normal title ->
  generateShortSlug env (newTaskTitle st) = Normal slug ->
  handleAddTask env st
  = (Normal tt,
     created st
       (Build_AddTaskArgs (newTaskTitle st)
          (match manualCategory st with Auto => Resources | Chosen c => c end)
          (selectedDate st)
          (Some (LinkMetadata.mk title (JSString.replace host "www." "")
                   ("https://www.google.com/s2/favicons?domain="
                      +:+ JSString.replace host "www." "" +:+ "&sz=64")
                   slug false)))).
Proof.
  intros NB Hurl Hh Ht Hs. unfold created. run_handler.
  destruct (decide _) as [E|_]; [done |].
  rewrite Hurl. cbn. by rewrite Hh, Ht, Hs.
Qed.

(** The fallback branch: the category the form or the classifier gives, and
    no metadata. *)
Lemma handleAddTask_fallback (env : Env) (st : State) :
  JSString.trim (newTaskTitle st) <> "" ->
  isUrl (newTaskTitle st) = false \/ linkFailed env (newTaskTitle st) ->
  handleAddTask env st
  = match manualCategory st with
    | Chosen c =>
        (Normal tt, created st (Build_AddTaskArgs (newTaskTitle st) c (selectedDate st) None))
    | Auto =>
        match categorizeTask env (newTaskTitle st) with
        | Normal c =>
            (Normal tt,
             created st (Build_AddTaskArgs (newTaskTitle st) c (selectedDate st) None))
        | Throw =>
            (Throw,
             Build_State (newTaskTitle st) (manualCategory st) (selectedDate st) true
                         (onAddTask_calls st))
        end
    end.
Proof.
  intros NB Hcase. unfold linkFailed in Hcase. unfold created. run_handler.
  destruct (decide _) as [E|_]; [done |].
  destruct (isUrl (newTaskTitle st)) eqn:U; cbn.
  - destruct (URL_hostname env (newTaskTitle st)) eqn:H1; cbn.
    + destruct (summarizeLink env (newTaskTitle st)) eqn:H2,
               (generateShortSlug env (newTaskTitle st)) eqn:H3; cbn.
      { exfalso. destruct Hcase as [? | [? | [? | ?]]]; congruence. }
      all: destruct (manualCategory st); cbn; try done;
        by destruct (categorizeTask env (newTaskTitle st)).
    + destruct (manualCategory st); cbn; try done.
      by destruct (categorizeTask env (newTaskTitle st)).
  - destruct (manualCategory st); cbn; try done.
    by destruct (categorizeTask env (newTaskTitle st)).
Qed.

(** C1. For a non-blank input the entry handed to [onAddTask] follows the
    decision order: URL-shaped text whose link resolution succeeds (the text
    parses as a URL and both link services answer) gets the link metadata
    and the chosen category, or Resources when none is chosen; text that is
    not URL-shaped, or whose link resolution failed, gets no metadata and
    the chosen category, or the classifier's answer on the raw text when
    none is chosen. *)
Theorem C1_classification_order (env : Env) (st : State) :
  JSString.trim (newTaskTitle st) <> "" ->
  (forall host title slug,
      isUrl (newTaskTitle st) = true ->
      URL_hostname env (newTaskTitle st) = Normal host ->
      summarizeLink env (newTaskTitle st) = Normal title ->
      generateShortSlug env (newTaskTitle st) = Normal slug ->
      handleAddTask env st
      = (Normal tt,
         created st
           (Build_AddTaskArgs (newTaskTitle st)
              (match manualCategory st with Auto => Resources | Chosen c => c end)
              (selectedDate st)
              (Some (LinkMetadata.mk title (JSString.replace host "www." "")
                       ("https://www.google.com/s2/favicons?domain="
                          +:+ JSString.replace host "www." "" +:+ "&sz=64")
                       slug false)))))
  /\ (isUrl (newTaskTitle st) = false \/ linkFailed env (newTaskTitle st) ->
      (forall c, manualCategory st = Chosen c ->
         handleAddTask env st
         = (Normal tt,
            created st (Build_AddTaskArgs (newTaskTitle st) c (selectedDate st) None)))
      /\ (forall c, manualCategory st = Auto ->
            categorizeTask env (newTaskTitle st) = Normal c ->
            handleAddTask env st
            = (Normal tt,
               created st (Build_AddTaskArgs (newTaskTitle st) c (selectedDate st) None)))).
Proof.
  intros NB. split.
  - intros host title slug. by apply handleAddTask_linked.
  - intros Hcase. rewrite (handleAddTask_fallback env st NB Hcase).
    split; intros c Hm; rewrite Hm; [done |]. by intros ->.
Qed.

Lemma C1_classification_order_witness :
  handleAddTask Samples.online (Samples.draft "https://www.example.com/page" Auto)
  = (Normal tt,
     Build_State "" Auto "2024-01-01" false
       [Build_AddTaskArgs "https://www.example.com/page" Resources "2024-01-01"
          (Some (LinkMetadata.mk "Example Domain" "example.com"
                   "https://www.google.com/s2/favicons?domain=example.com&sz=64"
                   "example" false))])
  /\ handleAddTask Samples.online (Samples.draft "call the bank" Auto)
     = (Normal tt,
        Build_State "" Auto "2024-01-01" false
          [Build_AddTaskArgs "call the bank" Areas "2024-01-01" None]).
Proof.
  split.
  - refine (proj1 (C1_classification_order Samples.online
                     (Samples.draft "https://www.example.com/page" Auto) _)
              "www.example.com" "Example Domain" "example" _ _ _ _);
      [discriminate | reflexivity ..].
  - refine (proj2 (proj2 (C1_classification_order Samples.online
                            (Samples.draft "call the bank" Auto) _) _)
              Areas _ _);
      [discriminate | left; reflexivity | reflexivity ..].
Defined.

(** C5 (as amended). When the text is URL-shaped and link resolution fails,
    the failure is caught: a chosen category creates the entry with that
    category and no metadata; with no choice the classifier is asked about
    the raw URL, and its answer creates the entry with that category and no
    metadata.  The handler can then complete abruptly only through the
    classifier. *)
Theorem C5_link_failure_falls_back (env : Env) (st : State) :
  isUrl (newTaskTitle st) = true ->
  linkFailed env (newTaskTitle st) ->
  (forall c, manualCategory st = Chosen c ->
     handleAddTask env st
     = (Normal tt, created st (Build_AddTaskArgs (newTaskTitle st) c (selectedDate st) None)))
  /\ (forall c, manualCategory st = Auto ->
        categorizeTask env (newTaskTitle st) = Normal c ->
        handleAddTask env st
        = (Normal tt,
           created st (Build_AddTaskArgs (newTaskTitle st) c (selectedDate st) None)))
  /\ ((handleAddTask env st).1 = Throw ->
      manualCategory st = Auto /\ categorizeTask env (newTaskTitle st) = Throw).
Proof.
  intros Hurl Hfail.
  rewrite (handleAddTask_fallback env st (isUrl_not_blank _ Hurl) (or_intror Hfail)).
  split; [| split].
  - by intros c ->.
  - by intros c -> ->.
  - destruct (manualCategory st); [| done].
    by destruct (categorizeTask env (newTaskTitle st)).
Qed.

Lemma C5_link_failure_falls_back_witness :
  handleAddTask Samples.no_summary (Samples.draft "https://example.com/page" Auto)
  = (Normal tt,
     Build_State "" Auto "2024-01-01" false
       [Build_AddTaskArgs "https://example.com/page" Areas "2024-01-01" None]).
Proof.
  refine (proj1 (proj2 (C5_link_failure_falls_back Samples.no_summary
                          (Samples.draft "https://example.com/page" Auto) _ _))
            Areas _ _);
    [reflexivity | right; left; reflexivity | reflexivity ..].
Defined.

(** C5 as the spec states it fails: when the summary service and the
    classifier both reject and no category was chosen, the handler itself
    rejects; no entry is created and the form stays in its loading state. *)
Lemma C5_counterexample :
  isUrl "https://example.com/page" = true
  /\ summarizeLink Samples.offline "https://example.com/page" = Throw
  /\ handleAddTask Samples.offline (Samples.draft "https://example.com/page" Auto)
     = (Throw, Build_State "https://example.com/page" Auto "2024-01-01" true []).
Proof. repeat split; by vm_compute. Qed.

(** C6 at a host with [www.] inside it: [replace] removes the first
    occurrence wherever it stands, so the domain of
    [https://mywww.example.com/page] is recorded as [myexample.com]. *)
Lemma C6_domain_inner_www :
  JSString.startsWith "mywww.example.com" "www." = false
  /\ JSString.replace "mywww.example.com" "www." "" = "myexample.com"
  /\ handleAddTask Samples.online (Samples.draft "https://mywww.example.com/page" Auto)
     = (Normal tt,
        Build_State "" Auto "2024-01-01" false
          [Build_AddTaskArgs "https://mywww.example.com/page" Resources "2024-01-01"
             (Some (LinkMetadata.mk "Example Domain" "myexample.com"
                      "https://www.google.com/s2/favicons?domain=myexample.com&sz=64"
                      "example" false))]).
Proof. repeat split; by vm_compute. Qed.

(** C10. [isUrl] holds exactly for the texts that begin with the four
    characters [http].  For any other text the link services are never
    consulted (the run depends on the environment through the classifier
    alone), no call the run makes to [onAddTask] carries metadata, and the
    entry of a non-blank text gets the chosen category, or the classifier's
    answer when none is chosen. *)
Theorem C10_links_need_http_prefix (env : Env) (st : State) :
  (isUrl (newTaskTitle st) = true <-> exists rest, newTaskTitle st = "http" +:+ rest)
  /\ (isUrl (newTaskTitle st) = false ->
      (forall env', categorizeTask env' = categorizeTask env ->
                    handleAddTask env' st = handleAddTask env st)
      /\ (forall call, call ∈ onAddTask_calls (handleAddTask env st).2 ->
                       call ∈ onAddTask_calls st \/ arg_metadata call = None)
      /\ (forall c, JSString.trim (newTaskTitle st) <> "" ->
                    manualCategory st = Chosen c
                    \/ (manualCategory st = Auto
                        /\ categorizeTask env (newTaskTitle st) = Normal c) ->
                    handleAddTask env st
                    = (Normal tt,
                       created st
                         (Build_AddTaskArgs (newTaskTitle st) c (selectedDate st) None)))).
Proof.
  split; [apply prefix_app |].
  intros Hurl.
  destruct (decide (JSString.trim (newTaskTitle st) = "")) as [B|NB].
  { split; [| split].
    - intros env' _. by rewrite !handleAddTask_blank.
    - intros call. rewrite handleAddTask_blank by done. by left.
    - done. }
  split; [| split].
  - intros env' Hc.
    rewrite !(handleAddTask_fallback _ st NB (or_introl Hurl)). by rewrite Hc.
  - intros call. rewrite (handleAddTask_fallback env st NB (or_introl Hurl)).
    destruct (manualCategory st); [destruct (categorizeTask env (newTaskTitle st)) |];
      cbn; rewrite ?elem_of_app, ?list_elem_of_singleton;
      intros H; try (by left); destruct H as [? | ->]; auto.
  - intros c _ Hc. rewrite (handleAddTask_fallback env st NB (or_introl Hurl)).
    by destruct Hc as [-> | [-> ->]].
Qed.

Lemma C10_links_need_http_prefix_witness :
  handleAddTask Samples.no_summary (Samples.draft "ftp://example.com/file" Auto)
  = handleAddTask Samples.online (Samples.draft "ftp://example.com/file" Auto)
  /\ handleAddTask Samples.no_summary (Samples.draft "HTTP://EXAMPLE.COM/" (Chosen Projects))
     = handleAddTask Samples.online (Samples.draft "HTTP://EXAMPLE.COM/" (Chosen Projects)).
Proof.
  split.
  - refine (proj1 (proj2 (C10_links_need_http_prefix Samples.online
                            (Samples.draft "ftp://example.com/file" Auto)) _)
              Samples.no_summary _); reflexivity.
  - refine (proj1 (proj2 (C10_links_need_http_prefix Samples.online
                            (Samples.draft "HTTP://EXAMPLE.COM/" (Chosen Projects))) _)
              Samples.no_summary _); reflexivity.
Defined.

End AddTaskFacts.

(** * DailyView: toggling and deleting entries *)
Module TaskFacts.
Import DailyView.

Lemma toggleTask_unfold (id : string) (tasks : list Task.t) :
  toggleTask id tasks
  = if decide (Task.category <$> List.find (fun t => bool_decide (Task.id t = id)) tasks
               = Some Resources)
    then tasks else flip_if id <$> tasks.
Proof. reflexivity. Qed.

Lemma find_absent (id : string) (tasks : list Task.t) :
  id ∉ Task.id <$> tasks -> List.find (fun t => bool_decide (Task.id t = id)) tasks = None.
Proof.
  induction tasks as [|t l IH]; [done |]. rewrite fmap_cons, not_elem_of_cons.
  intros [NE Hl]. cbn. rewrite bool_decide_eq_false_2 by done. by apply IH.
Qed.

Lemma flip_absent (id : string) (tasks : list Task.t) :
  id ∉ Task.id <$> tasks -> flip_if id <$> tasks = tasks.
Proof.
  induction tasks as [|t l IH]; [done |]. rewrite !fmap_cons, not_elem_of_cons.
  intros [NE Hl]. rewrite IH by done. unfold flip_if at 1. by rewrite decide_False.
Qed.

Lemma id_elem_of_lookup (tasks : list Task.t) (i : nat) (e : Task.t) :
  tasks !! i = Some e -> Task.id e ∈ Task.id <$> tasks.
Proof. intros H. apply list_elem_of_fmap. exists e. split; [done |]. by eapply list_elem_of_lookup_2. Qed.

(** With unique ids, [find] returns the entry that carries the id. *)
Lemma find_unique (tasks : list Task.t) (i : nat) (e : Task.t) :
  NoDup (Task.id <$> tasks) -> tasks !! i = Some e ->
  List.find (fun t => bool_decide (Task.id t = Task.id e)) tasks = Some e.
Proof.
  revert i. induction tasks as [|t l IH]; intros i; [done |].
  rewrite fmap_cons, NoDup_cons. intros [Hnotin Hnd] Hi. cbn.
  destruct i as [|i]; cbn in Hi.
  - injection Hi as ->. by rewrite bool_decide_eq_true_2.
  - rewrite bool_decide_eq_false_2; [by eapply IH |].
    intros E. apply Hnotin. rewrite E. by apply (id_elem_of_lookup l i e).
Qed.

(** With unique ids, the [map] of [toggleTask] rewrites one position. *)
Lemma flip_unique (tasks : list Task.t) (i : nat) (e : Task.t) :
  NoDup (Task.id <$> tasks) -> tasks !! i = Some e ->
  flip_if (Task.id e) <$> tasks
  = <[i := Task.with_completed (negb (Task.completed e)) e]> tasks.
Proof.
  revert i. induction tasks as [|t l IH]; intros i; [done |].
  rewrite !fmap_cons, NoDup_cons. intros [Hnotin Hnd] Hi.
  destruct i as [|i]; cbn in Hi.
  - injection Hi as ->. cbn. unfold flip_if at 1. rewrite decide_True by done.
    by rewrite flip_absent.
  - cbn. rewrite (IH i) by done. unfold flip_if. rewrite decide_False; [done |].
    intros E. apply Hnotin. rewrite E. by apply (id_elem_of_lookup l i e).
Qed.

(** C7. With unique ids, toggling the id of a Resources entry leaves the
    whole collection as it is; toggling the id of any other entry replaces
    that entry, at its position, by a copy whose [completed] flag is
    negated and whose other fields are the same, and leaves every other
    position as it is.  Toggling an id no entry carries changes nothing. *)
Theorem C7_toggle_flips_only_completed (tasks : list Task.t) (id : string) :
  NoDup (Task.id <$> tasks) ->
  (forall i e, tasks !! i = Some e -> Task.id e = id ->
     let e' := Task.with_completed (negb (Task.completed e)) e in
     (Task.category e = Resources -> toggleTask id tasks = tasks)
     /\ (Task.category e <> Resources -> toggleTask id tasks = <[i := e']> tasks)
     /\ (Task.completed e' = negb (Task.completed e)
         /\ Task.id e' = Task.id e
         /\ Task.title e' = Task.title e
         /\ Task.category e' = Task.category e
         /\ Task.date e' = Task.date e
         /\ Task.linkMetadata e' = Task.linkMetadata e
         /\ Task.notes e' = Task.notes e
         /\ Task.archivedItems e' = Task.archivedItems e))
  /\ (id ∉ Task.id <$> tasks -> toggleTask id tasks = tasks).
Proof.
  intros Hnd. split.
  - intros i e Hi <-. cbn zeta. rewrite toggleTask_unfold, (find_unique tasks i e Hnd Hi).
    cbn [fmap option_fmap option_map]. split; [| split].
    + intros ->. by rewrite decide_True.
    + intros NE. rewrite decide_False by congruence. by apply flip_unique.
    + done.
  - intros Habs. rewrite toggleTask_unfold, find_absent by done.
    cbn. rewrite decide_False by done. by apply flip_absent.
Qed.

Lemma C7_toggle_flips_only_completed_witness :
  toggleTask "t-1" Samples.tasks
  = [Task.with_completed true Samples.task_a; Samples.resource_b; Samples.archive_c]
  /\ toggleTask "t-2" Samples.tasks = Samples.tasks.
Proof.
  assert (NoDup (Task.id <$> Samples.tasks)) as Hnd
    by (apply (@bool_decide_unpack _ (NoDup_dec _)); exact I).
  split.
  - refine (proj1 (proj2 (proj1 (C7_toggle_flips_only_completed Samples.tasks "t-1" Hnd)
                            0 Samples.task_a _ _)) _);
      [reflexivity | reflexivity | discriminate].
  - refine (proj1 (proj1 (C7_toggle_flips_only_completed Samples.tasks "t-2" Hnd)
                     1 Samples.resource_b _ _) _); reflexivity.
Defined.

Lemma same_archive_flip (id : string) (e : Task.t) : same_archive (flip_if id e) e.
Proof. unfold flip_if. by destruct (decide _). Qed.

Lemma toggle_origin (id : string) (tasks : list Task.t) (e' : Task.t) :
  e' ∈ toggleTask id tasks -> exists e, e ∈ tasks /\ same_archive e' e.
Proof.
  rewrite toggleTask_unfold. destruct (decide _); [by exists e' |].
  intros (e & -> & Hin)%list_elem_of_fmap. exists e. split; [done |].
  apply same_archive_flip.
Qed.

(** Every entry of the collection after one operation comes from an entry
    before it, with the same id, archived items and notes, or is the entry
    just added, which has neither archived items nor notes. *)
Lemma step_origin (op : Op) (tasks : list Task.t) (e' : Task.t) :
  e' ∈ step op tasks ->
  (exists e, e ∈ tasks /\ same_archive e' e)
  \/ (Task.archivedItems e' = None /\ Task.notes e' = None).
Proof.
  destruct op as [task | id | fresh args]; cbn [step].
  - unfold onClickTask. destruct (_ && _); [| by left; exists e'].
    intros Hin. left. by apply (toggle_origin (Task.id task)).
  - unfold deleteTask. intros [_ Hin]%list_elem_of_filter. by left; exists e'.
  - unfold addEntry. rewrite elem_of_app, list_elem_of_singleton.
    intros [Hin | ->]; [by left; exists e' | by right].
Qed.

Lemma run_origin (ops : list Op) (tasks : list Task.t) (e' : Task.t) :
  e' ∈ run ops tasks ->
  (exists e, e ∈ tasks /\ same_archive e' e)
  \/ (Task.archivedItems e' = None /\ Task.notes e' = None).
Proof.
  revert tasks. induction ops as [|op ops IH]; intros tasks; cbn.
  - intros Hin. by left; exists e'.
  - intros [(e1 & Hin1 & S1) | Hnew]%IH; [| by right].
    destruct (step_origin op tasks e1 Hin1) as [(e & Hin & S) | [Ha Hn]].
    + left. exists e. split; [done |]. destruct S1 as (? & ? & ?), S as (? & ? & ?).
      repeat split; congruence.
    + right. destruct S1 as (_ & -> & ->). done.
Qed.

Lemma unique_id (tasks : list Task.t) (x y : Task.t) :
  NoDup (Task.id <$> tasks) -> x ∈ tasks -> y ∈ tasks -> Task.id x = Task.id y -> x = y.
Proof.
  intros Hnd [i Hi]%list_elem_of_lookup [j Hj]%list_elem_of_lookup E.
  assert (i = j) as ->; [| congruence].
  apply (NoDup_lookup _ i j (Task.id x) Hnd); rewrite list_lookup_fmap.
  - by rewrite Hi.
  - by rewrite Hj, E.
Qed.

(** C9. Whatever sequence of clicks, deletions and additions is applied,
    every entry of the resulting collection either stems from an entry of
    the original one with the same id, archived items and notes, or was
    added on the way and has neither archived items nor notes.  With
    unique ids an archived-project entry is left exactly as it is by a click
    on any card and by an addition, and by the deletion of another id; the
    deletion of its own id removes it. *)
Theorem C9_archived_entries_frozen (tasks : list Task.t) :
  (forall ops e',
      e' ∈ run ops tasks ->
      (exists e, e ∈ tasks /\ Task.id e' = Task.id e
                 /\ Task.archivedItems e' = Task.archivedItems e
                 /\ Task.notes e' = Task.notes e)
      \/ (Task.archivedItems e' = None /\ Task.notes e' = None))
  /\ (forall id e',
        e' ∈ toggleTask id tasks ->
        exists e, e ∈ tasks /\ Task.id e' = Task.id e
                  /\ Task.archivedItems e' = Task.archivedItems e
                  /\ Task.notes e' = Task.notes e)
  /\ (forall e,
        NoDup (Task.id <$> tasks) -> e ∈ tasks -> isArchivedProject e = true ->
        (forall task, task ∈ tasks -> e ∈ step (Click task) tasks)
        /\ (forall fresh args, e ∈ step (Add fresh args) tasks)
        /\ (forall id, id <> Task.id e -> e ∈ step (Delete id) tasks)
        /\ (forall e', e' ∈ step (Delete (Task.id e)) tasks -> Task.id e' <> Task.id e)).
Proof.
  split; [intros ops e'; exact (run_origin ops tasks e') |].
  split; [intros id e'; exact (toggle_origin id tasks e') |].
  intros e Hnd Hin Harch. split; [| split; [| split]].
  - intros task Htask. cbn [step]. unfold onClickTask.
    destruct (decide (Task.id task = Task.id e)) as [E|NE].
    + rewrite (unique_id tasks task e Hnd Htask Hin E), Harch.
      by rewrite andb_false_r.
    + destruct (_ && _); [| done]. rewrite toggleTask_unfold.
      destruct (decide _); [done |].
      apply list_elem_of_fmap. exists e. split; [| done].
      unfold flip_if. by rewrite decide_False.
  - intros fresh args. cbn [step]. unfold addEntry. apply elem_of_app. by left.
  - intros id NE. cbn [step]. unfold deleteTask. apply list_elem_of_filter. by split.
  - intros e'. cbn [step]. unfold deleteTask. by intros [? _]%list_elem_of_filter.
Qed.

Lemma C9_archived_entries_frozen_witness :
  Samples.archive_c ∈ step (Click Samples.archive_c) Samples.tasks
  /\ Samples.archive_c ∈ step (Click Samples.task_a) Samples.tasks
  /\ Samples.archive_c ∈ step (Delete "t-1") Samples.tasks.
Proof.
  assert (NoDup (Task.id <$> Samples.tasks)) as Hnd
    by (apply (@bool_decide_unpack _ (NoDup_dec _)); exact I).
  assert (Samples.archive_c ∈ Samples.tasks) as Hin
    by (apply list_elem_of_In; right; right; left; reflexivity).
  destruct (proj2 (proj2 (C9_archived_entries_frozen Samples.tasks))
              Samples.archive_c Hnd Hin)
    as (Hclick & _ & Hdel & _); [reflexivity |].
  split; [| split].
  - apply Hclick, Hin.
  - apply Hclick. apply list_elem_of_In. left. reflexivity.
  - apply Hdel. discriminate.
Defined.

End TaskFacts.

(** * Further properties of the two components *)
Module MoreFacts.
Import DailyView ProjectView StringFacts.

(** X1. A blank input is ignored: the handler returns at once, nothing is
    classified, no entry is created and the state is left as it was. *)
Theorem X1_blank_input_is_ignored (env : Env) (st : State) :
  JSString.isBlank (newTaskTitle st) = true -> handleAddTask env st = (Normal tt, st).
Proof. intros B. apply AddTaskFacts.handleAddTask_blank. by apply trim_empty. Qed.

Lemma X1_blank_input_is_ignored_witness :
  handleAddTask Samples.offline (Samples.draft "   " (Chosen Projects))
  = (Normal tt, Samples.draft "   " (Chosen Projects)).
Proof. apply (X1_blank_input_is_ignored Samples.offline). reflexivity. Defined.

(** X2. When the host of a resolved link begins with [www.], the recorded
    domain is the host without that prefix. *)
Theorem X2_leading_www_is_stripped (env : Env) (st : State) (rest title slug : string) :
  isUrl (newTaskTitle st) = true ->
  URL_hostname env (newTaskTitle st) = Normal ("www." +:+ rest) ->
  summarizeLink env (newTaskTitle st) = Normal title ->
  generateShortSlug env (newTaskTitle st) = Normal slug ->
  exists call meta,
    onAddTask_calls (handleAddTask env st).2 = onAddTask_calls st ++ [call]
    /\ arg_metadata call = Some meta
    /\ LinkMetadata.domain meta = rest.
Proof.
  intros Hurl Hh Ht Hs.
  rewrite (AddTaskFacts.handleAddTask_linked env st _ _ _
             (AddTaskFacts.isUrl_not_blank _ Hurl) Hurl Hh Ht Hs).
  eexists _, _. cbn. split; [done |]. split; [done |]. cbn. apply replace_leading_www.
Qed.

Lemma X2_leading_www_is_stripped_witness :
  exists call meta,
    onAddTask_calls
      (handleAddTask Samples.online (Samples.draft "https://www.example.com/page" Auto)).2
    = [call]
    /\ arg_metadata call = Some meta
    /\ LinkMetadata.domain meta = "example.com".
Proof.
  apply (X2_leading_www_is_stripped Samples.online
           (Samples.draft "https://www.example.com/page" Auto)
           "example.com" "Example Domain" "example"); reflexivity.
Defined.

(** X3. [deleteTask] keeps exactly the entries with another id, as they
    are; deleting an id no entry carries changes nothing. *)
Theorem X3_delete_removes_exactly_the_id (id : string) (tasks : list Task.t) :
  (forall e, e ∈ deleteTask id tasks <-> e ∈ tasks /\ Task.id e <> id)
  /\ (id ∉ Task.id <$> tasks -> deleteTask id tasks = tasks).
Proof.
  unfold deleteTask. split.
  - intros e. rewrite list_elem_of_filter. tauto.
  - induction tasks as [|t l IH]; [done |]. rewrite fmap_cons, not_elem_of_cons.
    intros [NE Hl]. rewrite filter_cons, decide_True by done. by rewrite IH.
Qed.

(** X4. Progress and visibility depend on the items only through their
    number and the number of completed ones: reordering the items changes
    neither. *)
Theorem X4_progress_ignores_item_order (p q : Project.t) :
  Project.items p ≡ₚ Project.items q ->
  getProgress p = getProgress q /\ isActive p = isActive q.
Proof.
  intros Hperm. unfold getProgress, isActive.
  assert (length (Project.items p) = length (Project.items q)) as ->
    by by apply Permutation_length.
  assert (length (filter (fun i => ProjectItem.completed i = true) (Project.items p))
          = length (filter (fun i => ProjectItem.completed i = true) (Project.items q))) as ->
    by (apply Permutation_length; by rewrite Hperm).
  done.
Qed.

Lemma X4_progress_ignores_item_order_witness :
  getProgress (Project.mk "p" "P" "" Mid "" "In Progress"
                 [Samples.item 0 true; Samples.item 1 false; Samples.item 2 false] "p")
  = getProgress (Project.mk "q" "Q" "" Long "" "In Progress"
                   [Samples.item 2 false; Samples.item 0 true; Samples.item 1 false] "q").
Proof.
  apply (X4_progress_ignores_item_order
           (Project.mk "p" "P" "" Mid "" "In Progress"
              [Samples.item 0 true; Samples.item 1 false; Samples.item 2 false] "p")
           (Project.mk "q" "Q" "" Long "" "In Progress"
              [Samples.item 2 false; Samples.item 0 true; Samples.item 1 false] "q")).
  cbn. symmetry.
  apply (Permutation_cons_append [Samples.item 0 true; Samples.item 1 false]
                                 (Samples.item 2 false)).
Defined.

End MoreFacts.

(** * DailyView: the board, clicks and deletions together *)
Module BoardFacts.
Import DailyView DailyBoard.

Lemma filter_fmap_compat {A : Type} (P : A -> Prop) `{!forall x, Decision (P x)}
    (f : A -> A) (l : list A) :
  (forall x, P (f x) <-> P x) -> filter P (f <$> l) = f <$> filter P l.
Proof.
  intros Hf. induction l as [|x l IH]; [done |].
  rewrite fmap_cons, !filter_cons.
  destruct (decide (P (f x))) as [H1|H1], (decide (P x)) as [H2|H2].
  - by rewrite fmap_cons, IH.
  - destruct H2. by apply Hf.
  - destruct H1. by apply Hf.
  - done.
Qed.

Lemma filter_comm {A : Type} (P Q : A -> Prop) `{!forall x, Decision (P x)}
    `{!forall x, Decision (Q x)} (l : list A) :
  filter P (filter Q l) = filter Q (filter P l).
Proof.
  induction l as [|x l IH]; [done |]. rewrite !filter_cons.
  destruct (decide (Q x)), (decide (P x)); rewrite ?filter_cons;
    repeat (rewrite decide_True by done); repeat (rewrite decide_False by done);
    by rewrite IH.
Qed.

Lemma flip_if_id (id : string) (t : Task.t) : Task.id (flip_if id t) = Task.id t.
Proof. unfold flip_if. by destruct (decide _). Qed.

Lemma flip_if_category (id : string) (t : Task.t) :
  Task.category (flip_if id t) = Task.category t.
Proof. unfold flip_if. by destruct (decide _). Qed.

Lemma flip_if_date (id : string) (t : Task.t) : Task.date (flip_if id t) = Task.date t.
Proof. unfold flip_if. by destruct (decide _). Qed.

Lemma flip_if_twice (id : string) (t : Task.t) : flip_if id (flip_if id t) = t.
Proof.
  unfold flip_if. destruct (decide (Task.id t = id)) as [E|NE].
  - cbn. rewrite decide_True by done. destruct t. cbn. by rewrite negb_involutive.
  - by rewrite decide_False.
Qed.

Lemma find_flip (id : string) (tasks : list Task.t) :
  List.find (fun t => bool_decide (Task.id t = id)) (flip_if id <$> tasks)
  = flip_if id <$> List.find (fun t => bool_decide (Task.id t = id)) tasks.
Proof.
  induction tasks as [|t l IH]; [done |]. rewrite fmap_cons. cbn [List.find].
  rewrite flip_if_id. by destruct (bool_decide (Task.id t = id)).
Qed.

(** What a click or a toggle does to the collection: nothing, or the
    [map] of [toggleTask]. *)
Lemma toggleTask_cases (id : string) (tasks : list Task.t) :
  toggleTask id tasks = tasks \/ toggleTask id tasks = flip_if id <$> tasks.
Proof. unfold toggleTask. destruct (decide _); auto. Qed.

Lemma onClickTask_cases (task : Task.t) (tasks : list Task.t) :
  onClickTask task tasks = tasks
  \/ onClickTask task tasks = flip_if (Task.id task) <$> tasks.
Proof. unfold onClickTask. destruct (_ && _); [apply toggleTask_cases | by left]. Qed.

Lemma column_of_flipped (id selectedDate : string) (cat : ParaCategory) (tasks : list Task.t) :
  catTasks cat (filteredTasks selectedDate (flip_if id <$> tasks))
  = flip_if id <$> catTasks cat (filteredTasks selectedDate tasks).
Proof.
  unfold catTasks, filteredTasks.
  rewrite (filter_fmap_compat (fun task => Task.date task = selectedDate)).
  - rewrite (filter_fmap_compat (fun t => Task.category t = cat)); [done |].
    intros t. by rewrite flip_if_category.
  - intros t. by rewrite flip_if_date.
Qed.

(** X5. The four columns show every task of the selected day exactly once:
    a task is a card of the column of a category exactly when it is in the
    collection with the selected date and that category, the cards of a
    column keep the order of the collection, and the columns together are
    a rearrangement of the day's tasks. *)
Theorem X5_board_shows_each_task_once (selectedDate : string) (tasks : list Task.t) :
  (forall cat t,
      t ∈ catTasks cat (filteredTasks selectedDate tasks)
      <-> t ∈ tasks /\ Task.date t = selectedDate /\ Task.category t = cat)
  /\ (forall cat, catTasks cat (filteredTasks selectedDate tasks) `sublist_of` tasks)
  /\ concat (snd <$> columns selectedDate tasks) ≡ₚ filteredTasks selectedDate tasks.
Proof.
  split; [| split].
  - intros cat t. unfold catTasks, filteredTasks. rewrite !list_elem_of_filter. tauto.
  - intros cat. unfold catTasks, filteredTasks.
    etrans; apply sublist_filter.
  - unfold columns, categories. cbn [fmap list_fmap snd concat]. rewrite app_nil_r.
    unfold catTasks. induction (filteredTasks selectedDate tasks) as [|t l IH]; [done |].
    rewrite !filter_cons.
    destruct (Task.category t); repeat case_decide; try congruence.
    all: (etrans; [| apply perm_skip, IH]);
      rewrite <- ?app_comm_cons, <- ?Permutation_middle; done.
Qed.

(** X6. A click on a card, like any toggle, never moves, hides, adds or
    reorders a card: every column of every day shows the cards with the
    same ids in the same order afterwards, and with the same titles. *)
Theorem X6_click_keeps_every_card_in_place
    (task : Task.t) (id selectedDate : string) (cat : ParaCategory) (tasks : list Task.t) :
  (Task.id <$> catTasks cat (filteredTasks selectedDate (onClickTask task tasks))
   = Task.id <$> catTasks cat (filteredTasks selectedDate tasks)
   /\ Task.title <$> catTasks cat (filteredTasks selectedDate (onClickTask task tasks))
      = Task.title <$> catTasks cat (filteredTasks selectedDate tasks))
  /\ (Task.id <$> catTasks cat (filteredTasks selectedDate (toggleTask id tasks))
      = Task.id <$> catTasks cat (filteredTasks selectedDate tasks)
      /\ Task.title <$> catTasks cat (filteredTasks selectedDate (toggleTask id tasks))
         = Task.title <$> catTasks cat (filteredTasks selectedDate tasks)).
Proof.
  assert (forall i (l : list Task.t), Task.id <$> (flip_if i <$> l) = Task.id <$> l) as Hid.
  { intros i l. rewrite <- list_fmap_compose. apply list_fmap_ext.
    intros ? t _. apply flip_if_id. }
  assert (forall i (l : list Task.t), Task.title <$> (flip_if i <$> l) = Task.title <$> l) as Htitle.
  { intros i l. rewrite <- list_fmap_compose. apply list_fmap_ext.
    intros ? t _. cbn. unfold flip_if. by destruct (decide _). }
  split.
  - destruct (onClickTask_cases task tasks) as [-> | ->]; [done |].
    by rewrite column_of_flipped, Hid, Htitle.
  - destruct (toggleTask_cases id tasks) as [-> | ->]; [done |].
    by rewrite column_of_flipped, Hid, Htitle.
Qed.

(** X7. Toggling the same id twice gives the collection back, entry for
    entry; so does a second click on a card that was just clicked. *)
Theorem X7_toggle_twice_restores (id : string) (task : Task.t) (tasks : list Task.t) :
  toggleTask id (toggleTask id tasks) = tasks
  /\ onClickTask (flip_if (Task.id task) task) (onClickTask task tasks) = tasks.
Proof.
  assert (forall i l, toggleTask i (toggleTask i l) = l) as Htwice.
  { intros i l. unfold toggleTask at 2. destruct (decide _) as [E|NE].
    - unfold toggleTask. by rewrite decide_True.
    - unfold toggleTask. rewrite find_flip.
      rewrite decide_False.
      + rewrite <- list_fmap_compose. rewrite <- (list_fmap_id l) at 2.
        apply list_fmap_ext. intros ? t _. apply flip_if_twice.
      + intros E. apply NE. destruct (List.find _ l) as [t|]; [| done].
        cbn in *. by rewrite flip_if_category in E. }
  split; [apply Htwice |].
  unfold onClickTask, isArchivedProject.
  rewrite flip_if_category, flip_if_id.
  assert (Task.archivedItems (flip_if (Task.id task) task) = Task.archivedItems task) as ->
    by (unfold flip_if; by destruct (decide _)).
  destruct (_ && _); [apply Htwice | done].
Qed.

Lemma find_after_delete (a b : string) (tasks : list Task.t) :
  List.find (fun t => bool_decide (Task.id t = a)) (deleteTask b tasks)
  = if decide (a = b) then None
    else List.find (fun t => bool_decide (Task.id t = a)) tasks.
Proof.
  unfold deleteTask. induction tasks as [|t l IH]; [by destruct (decide _) |].
  rewrite filter_cons. destruct (decide (Task.id t ≠ b)) as [NE|E]; cbn [List.find].
  - rewrite IH. destruct (decide (a = b)) as [->|NEab].
    + by rewrite bool_decide_eq_false_2.
    + done.
  - apply dec_stable in E. rewrite IH. destruct (decide (a = b)) as [->|NEab]; [done |].
    rewrite bool_decide_eq_false_2; [done | congruence].
Qed.

Lemma flip_deleted (id : string) (tasks : list Task.t) :
  flip_if id <$> deleteTask id tasks = deleteTask id tasks.
Proof.
  unfold deleteTask. induction tasks as [|t l IH]; [done |].
  rewrite filter_cons. destruct (decide (Task.id t ≠ id)) as [NE|E]; [| done].
  rewrite fmap_cons, IH. unfold flip_if at 1. by rewrite decide_False.
Qed.

Lemma delete_flipped (a b : string) (tasks : list Task.t) :
  deleteTask b (flip_if a <$> tasks) = flip_if a <$> deleteTask b tasks.
Proof.
  unfold deleteTask. apply (filter_fmap_compat (fun t => Task.id t ≠ b)).
  intros t. by rewrite flip_if_id.
Qed.

(** X8. Deletions compose with each other, with toggles and with the
    board's filters: deleting an id twice is deleting it once, two
    deletions commute, a deletion and a toggle commute (of the same id or
    of different ones), a column of the board after a deletion is that
    column without the cards of the deleted id, and a collection with
    unique ids keeps unique ids. *)
Theorem X8_delete_composes (a b selectedDate : string) (cat : ParaCategory)
    (tasks : list Task.t) :
  deleteTask a (deleteTask a tasks) = deleteTask a tasks
  /\ deleteTask a (deleteTask b tasks) = deleteTask b (deleteTask a tasks)
  /\ toggleTask a (deleteTask b tasks) = deleteTask b (toggleTask a tasks)
  /\ catTasks cat (filteredTasks selectedDate (deleteTask a tasks))
     = deleteTask a (catTasks cat (filteredTasks selectedDate tasks))
  /\ (a ∉ Task.id <$> deleteTask a tasks)
  /\ (NoDup (Task.id <$> tasks) -> NoDup (Task.id <$> deleteTask a tasks)).
Proof.
  repeat split.
  - unfold deleteTask. rewrite list_filter_filter. apply list_filter_iff. intros t. tauto.
  - apply (filter_comm (fun t => Task.id t ≠ a) (fun t => Task.id t ≠ b)).
  - rewrite (TaskFacts.toggleTask_unfold a (deleteTask b tasks)), find_after_delete.
    destruct (decide (a = b)) as [->|NE].
    + rewrite decide_False by done. rewrite flip_deleted.
      destruct (toggleTask_cases b tasks) as [-> | ->]; [done |].
      by rewrite delete_flipped, flip_deleted.
    + rewrite TaskFacts.toggleTask_unfold. destruct (decide _); [done |].
      by rewrite delete_flipped.
  - unfold catTasks, filteredTasks, deleteTask.
    rewrite (filter_comm (fun task => Task.date task = selectedDate) (fun t => Task.id t ≠ a)).
    by rewrite (filter_comm (fun t => Task.category t = cat) (fun t => Task.id t ≠ a)).
  - unfold deleteTask. intros (e & E & [Hne _]%list_elem_of_filter)%list_elem_of_fmap.
    congruence.
  - unfold deleteTask. clear cat selectedDate b.
    induction tasks as [|t l IH]; [constructor |].
    rewrite fmap_cons, NoDup_cons. intros [Hnotin Hnd].
    rewrite filter_cons. destruct (decide _); [| by apply IH].
    rewrite fmap_cons, NoDup_cons. split; [| by apply IH].
    intros (e & E & [_ Hin]%list_elem_of_filter)%list_elem_of_fmap.
    apply Hnotin, list_elem_of_fmap. by exists e.
Qed.

Lemma X8_delete_composes_witness :
  NoDup (Task.id <$> Samples.tasks)
  /\ toggleTask "t-1" (deleteTask "t-2" Samples.tasks)
     = deleteTask "t-2" (toggleTask "t-1" Samples.tasks)
  /\ NoDup (Task.id <$> deleteTask "t-1" Samples.tasks).
Proof.
  assert (NoDup (Task.id <$> Samples.tasks)) as Hnd
    by (apply (@bool_decide_unpack _ (NoDup_dec _)); exact I).
  destruct (X8_delete_composes "t-1" "t-2" "2024-01-01" Areas Samples.tasks)
    as (_ & _ & H & _ & _ & H').
  split; [exact Hnd |]. split; [exact H | exact (H' Hnd)].
Defined.

(** X9. The label of a link card is never empty: it is the link's display
    title when the entry has link metadata with a non-empty one, and the
    entry's own title, the address, otherwise; a title that [isUrl] accepts
    is not empty.  An entry that [handleAddTask] creates from a resolved
    link whose summary came back empty is therefore shown by its address. *)
Theorem X9_link_label_never_empty (task : Task.t) :
  isUrl (Task.title task) = true ->
  linkLabel task <> ""
  /\ (forall m, Task.linkMetadata task = Some m -> LinkMetadata.displayTitle m <> "" ->
                linkLabel task = LinkMetadata.displayTitle m)
  /\ (forall m, Task.linkMetadata task = Some m -> LinkMetadata.displayTitle m = "" ->
                linkLabel task = Task.title task)
  /\ (Task.linkMetadata task = None -> linkLabel task = Task.title task).
Proof.
  intros Hurl.
  assert (Task.title task <> "") as NE.
  { apply StringFacts.prefix_app in Hurl as [rest ->]. done. }
  unfold linkLabel. repeat split.
  - destruct (Task.linkMetadata task) as [m|]; [| done]. by destruct (decide _).
  - intros m -> Hm. by rewrite decide_False.
  - intros m -> Hm. by rewrite decide_True.
  - by intros ->.
Qed.

Lemma X9_link_label_never_empty_witness :
  linkLabel Samples.resource_b = "Example Domain".
Proof.
  destruct (X9_link_label_never_empty Samples.resource_b eq_refl) as (_ & H & _).
  by apply (H _ eq_refl).
Defined.

End BoardFacts.

(** * DailyView: every outcome of the add form *)
Module AddTaskMoreFacts.
Import DailyView.

(** Link resolution answers at every step, or fails at one. *)
Lemma handleAddTask_resolved_or_failed (env : Env) (text : string) :
  (exists host title slug,
      URL_hostname env text = Normal host
      /\ summarizeLink env text = Normal title
      /\ generateShortSlug env text = Normal slug)
  \/ linkFailed env text.
Proof.
  unfold linkFailed.
  destruct (URL_hostname env text) as [host|]; [| by right; left].
  destruct (summarizeLink env text) as [title|]; [| by right; right; left].
  destruct (generateShortSlug env text) as [slug|]; [| by right; right; right].
  left. by exists host, title, slug.
Qed.

(** X10. Whatever the services answer, one submission of the add form
    ends in one of three ways: nothing happens (the text is blank); exactly
    one entry is requested, with the text as typed (not trimmed) as its
    title and the selected date, the input is cleared and the spinner is
    off; or the handler fails, which happens only when no category was
    chosen and the classifier rejects, and then no entry is requested, the
    text stays in the input and the spinner stays on.  The chosen category
    and the selected date are never changed. *)
Theorem X10_add_has_three_outcomes (env : Env) (st : State) :
  manualCategory (handleAddTask env st).2 = manualCategory st
  /\ selectedDate (handleAddTask env st).2 = selectedDate st
  /\ ((JSString.trim (newTaskTitle st) = "" /\ handleAddTask env st = (Normal tt, st))
      \/ (exists call,
             handleAddTask env st = (Normal tt, created st call)
             /\ arg_title call = newTaskTitle st
             /\ arg_date call = selectedDate st)
      \/ (manualCategory st = Auto
          /\ categorizeTask env (newTaskTitle st) = Throw
          /\ handleAddTask env st
             = (Throw,
                Build_State (newTaskTitle st) Auto (selectedDate st) true (onAddTask_calls st)))).
Proof.
  destruct (decide (JSString.trim (newTaskTitle st) = "")) as [B|NB].
  { rewrite AddTaskFacts.handleAddTask_blank by done. auto. }
  assert (isUrl (newTaskTitle st) = true
          /\ (exists host title slug,
                 URL_hostname env (newTaskTitle st) = Normal host
                 /\ summarizeLink env (newTaskTitle st) = Normal title
                 /\ generateShortSlug env (newTaskTitle st) = Normal slug)
          \/ (isUrl (newTaskTitle st) = false \/ linkFailed env (newTaskTitle st)))
    as [[Hurl (host & title & slug & Hh & Ht & Hs)] | Hfb].
  { destruct (isUrl (newTaskTitle st)); [| by right; left].
    destruct (handleAddTask_resolved_or_failed env (newTaskTitle st)); [by left | by right; right]. }
  - rewrite (AddTaskFacts.handleAddTask_linked env st host title slug) by done.
    split; [done |]. split; [done |]. right; left. by eexists.
  - rewrite (AddTaskFacts.handleAddTask_fallback env st) by done.
    destruct (manualCategory st) as [|c] eqn:M.
    + destruct (categorizeTask env (newTaskTitle st)) as [c|] eqn:K.
      * split; [done |]. split; [done |]. right; left. by eexists.
      * split; [done |]. split; [done |]. right; right. done.
    + split; [done |]. split; [done |]. right; left. by eexists.
Qed.

(** X11. With a category chosen on the form, a submission of a non-blank
    text never fails and never consults the classifier: an entry with the
    chosen category is requested whatever the link services and the
    classifier do, and a text that is not URL-shaped gives the same entry,
    without link metadata, under every environment. *)
Theorem X11_chosen_category_always_adds (env : Env) (st : State) (c : ParaCategory) :
  JSString.trim (newTaskTitle st) <> "" ->
  manualCategory st = Chosen c ->
  (exists meta,
      handleAddTask env st
      = (Normal tt,
         created st (Build_AddTaskArgs (newTaskTitle st) c (selectedDate st) meta)))
  /\ (forall classifier,
         handleAddTask
           (Build_Env (URL_hostname env) (summarizeLink env) (generateShortSlug env) classifier)
           st
         = handleAddTask env st)
  /\ (isUrl (newTaskTitle st) = false ->
      forall env',
        handleAddTask env' st
        = (Normal tt,
           created st (Build_AddTaskArgs (newTaskTitle st) c (selectedDate st) None))).
Proof.
  intros NB M.
  assert (forall e : Env,
             isUrl (newTaskTitle st) = false \/ linkFailed e (newTaskTitle st) ->
             handleAddTask e st
             = (Normal tt,
                created st (Build_AddTaskArgs (newTaskTitle st) c (selectedDate st) None)))
    as Hfb.
  { intros e H. rewrite (AddTaskFacts.handleAddTask_fallback e st NB H). by rewrite M. }
  assert (forall (e : Env) host title slug,
             isUrl (newTaskTitle st) = true ->
             URL_hostname e (newTaskTitle st) = Normal host ->
             summarizeLink e (newTaskTitle st) = Normal title ->
             generateShortSlug e (newTaskTitle st) = Normal slug ->
             handleAddTask e st
             = (Normal tt,
                created st
                  (Build_AddTaskArgs (newTaskTitle st) c (selectedDate st)
                     (Some (LinkMetadata.mk title (JSString.replace host "www." "")
                              ("https://www.google.com/s2/favicons?domain="
                                 +:+ JSString.replace host "www." "" +:+ "&sz=64")
                              slug false)))))
    as Hlk.
  { intros e host title slug Hurl Hh Ht Hs.
    rewrite (AddTaskFacts.handleAddTask_linked e st host title slug NB Hurl Hh Ht Hs).
    by rewrite M. }
  split; [| split].
  - destruct (isUrl (newTaskTitle st)) eqn:Hurl; [| eexists; apply Hfb; by left].
    destruct (handleAddTask_resolved_or_failed env (newTaskTitle st))
      as [(host & title & slug & Hh & Ht & Hs) | Hf].
    + eexists. by apply (Hlk env host title slug).
    + eexists. apply Hfb. by right.
  - intros classifier.
    destruct (isUrl (newTaskTitle st)) eqn:Hurl.
    + destruct (handleAddTask_resolved_or_failed env (newTaskTitle st))
        as [(host & title & slug & Hh & Ht & Hs) | Hf].
      * rewrite (Hlk env host title slug) by done.
        by apply (Hlk _ host title slug).
      * rewrite (Hfb env) by (by right). apply Hfb. by right.
    + rewrite (Hfb env) by (by left). apply Hfb. by left.
  - intros Hurl env'. apply Hfb. by left.
Qed.

Lemma X11_chosen_category_always_adds_witness :
  handleAddTask Samples.offline (Samples.draft "Write report" (Chosen Projects))
  = (Normal tt,
     created (Samples.draft "Write report" (Chosen Projects))
             (Build_AddTaskArgs "Write report" Projects "2024-01-01" None)).
Proof.
  destruct (X11_chosen_category_always_adds Samples.offline
              (Samples.draft "Write report" (Chosen Projects)) Projects)
    as (_ & _ & H); [by vm_compute | reflexivity |].
  apply H. reflexivity.
Defined.

End AddTaskMoreFacts.

(** * ProjectView: adding projects and items *)
Module ProjectHandlerFacts.
Import ProjectView ProjectHandlers.

Lemma itemCalls_cons (env : Env) (projectId : string) (k : nat) (t : string)
    (titles : list string) :
  itemCalls env projectId k (t :: titles)
  = Build_ItemCall projectId (ProjectItem.mk (randomUUID env k) t false None)
    :: itemCalls env projectId (S k) titles.
Proof.
  unfold itemCalls. rewrite imap_cons, Nat.add_0_r. f_equal.
  apply imap_ext. intros i x _. cbn. by rewrite Nat.add_succ_r.
Qed.

(** A [forEach] that adds one item per title: the calls it makes and the
    identifiers it draws. *)
Lemma forEach_addItem (env : Env) (projectId : string) (g : string -> string)
    (titles : list string) (st : State) :
  forEach (fun title => addItem env projectId (g title)) titles st
  = (Normal tt,
     Build_State (showAddModal st) (loadingId st) (newProj st) (projects st)
                 (onAddProjectItem_calls st
                    ++ itemCalls env projectId (uuids_drawn st) (g <$> titles))
                 (uuids_drawn st + length titles)).
Proof.
  revert st. induction titles as [|t l IH]; intros st.
  - cbn. rewrite app_nil_r, Nat.add_0_r. by destruct st.
  - rewrite fmap_cons, itemCalls_cons.
    cbn [forEach]. unfold mbind at 1, Handler_bind, addItem, draw, onAddProjectItem.
    unfold mbind at 1, Handler_bind. cbn. rewrite IH. cbn.
    by rewrite <- app_assoc, Nat.add_succ_r.
Qed.

Lemma addProject_blank (env : Env) (st : State) :
  JSString.trim (title (newProj st)) = "" -> addProject env st = (Normal tt, st).
Proof. intros B. unfold addProject. by rewrite decide_True. Qed.

Lemma addProject_rejected (env : Env) (st : State) :
  JSString.trim (title (newProj st)) <> "" ->
  generateShortSlug env (title (newProj st)) = Throw ->
  addProject env st = (Throw, st).
Proof.
  intros NB Hs. unfold addProject. rewrite decide_False by done.
  unfold mbind at 1, Handler_bind, await. by rewrite Hs.
Qed.

(** A run of [addProject] that gets its slug. *)
Lemma addProject_run (env : Env) (st : State) (slug : string) :
  JSString.trim (title (newProj st)) <> "" ->
  generateShortSlug env (title (newProj st)) = Normal slug ->
  addProject env st
  = (Normal tt,
     projectAdded st
       (newProject (newProj st) (randomUUID env (uuids_drawn st)) slug)
       (itemCalls env (randomUUID env (uuids_drawn st)) (S (uuids_drawn st))
                  (JSString.trim <$> seedTitles (initialItems (newProj st))))
       (S (length (seedTitles (initialItems (newProj st)))))).
Proof.
  intros NB Hs. unfold addProject. rewrite decide_False by done.
  unfold mbind at 1, Handler_bind, await. rewrite Hs.
  unfold mbind at 1, Handler_bind, draw. cbn [fst snd].
  unfold mbind at 1, Handler_bind, setProjects.
  unfold mbind at 1, Handler_bind. rewrite forEach_addItem.
  unfold mbind, Handler_bind, setShowAddModal, setNewProj, projectAdded, newProject. cbn.
  by rewrite Nat.add_succ_r.
Qed.

(** X12. [addProject] creates nothing without a title or a slug: when the
    title of the form is blank it returns at once, and when the slug
    service rejects it fails; in both cases no project and no item is
    created, no identifier is drawn, and the dialog stays as it was, its
    form still filled in. *)
Theorem X12_add_project_needs_title_and_slug (env : Env) (st : State) :
  JSString.trim (title (newProj st)) = ""
  \/ generateShortSlug env (title (newProj st)) = Throw ->
  (addProject env st).2 = st
  /\ ((addProject env st).1 = Throw <-> JSString.trim (title (newProj st)) <> "").
Proof.
  intros H. destruct (decide (JSString.trim (title (newProj st)) = "")) as [B|NB].
  - rewrite addProject_blank by done. split; [done |]. split; [done |]. by intros [].
  - destruct H as [B|H]; [done |]. rewrite addProject_rejected by done. done.
Qed.

Lemma X12_add_project_needs_title_and_slug_witness :
  addProject HandlerSamples.down (HandlerSamples.dialog "Launch" "Plan, Build")
  = (Throw, HandlerSamples.dialog "Launch" "Plan, Build").
Proof.
  destruct (X12_add_project_needs_title_and_slug HandlerSamples.down
              (HandlerSamples.dialog "Launch" "Plan, Build")) as [H1 H2];
    [right; reflexivity |].
  apply injective_projections; [apply H2; by vm_compute | exact H1].
Defined.

(** X13. When the title is not blank and the slug service answers,
    [addProject] puts one new project in front of the list: its title is
    the title as typed (not trimmed), its item list is empty, its status
    is "In Progress", so it is shown among the active projects, first, with
    progress 0.  The projects listed before are kept in their order, the
    dialog is closed and the form emptied, and one item is requested for
    each seed title, in the order typed, each with its own identifier,
    drawn after the project's. *)
Theorem X13_add_project_outcome (env : Env) (st : State) (slug : string) :
  JSString.trim (title (newProj st)) <> "" ->
  generateShortSlug env (title (newProj st)) = Normal slug ->
  let proj := newProject (newProj st) (randomUUID env (uuids_drawn st)) slug in
  addProject env st
  = (Normal tt,
     projectAdded st proj
       (itemCalls env (Project.id proj) (S (uuids_drawn st))
                  (JSString.trim <$> seedTitles (initialItems (newProj st))))
       (S (length (seedTitles (initialItems (newProj st))))))
  /\ activeProjects (projects (addProject env st).2) = proj :: activeProjects (projects st)
  /\ getProgress proj = 0%Z
  /\ Project.title proj = title (newProj st)
  /\ showAddModal (addProject env st).2 = false
  /\ newProj (addProject env st).2 = emptyNewProj.
Proof.
  intros NB Hs proj. rewrite (addProject_run env st slug NB Hs).
  repeat split.
Qed.

Lemma X13_add_project_outcome_witness :
  (call_item <$>
     onAddProjectItem_calls
       (addProject HandlerSamples.services
                   (HandlerSamples.dialog " Launch" "Plan, , Build ,")).2)
  = [ProjectItem.mk "uuid-1" "Plan" false None; ProjectItem.mk "uuid-2" "Build" false None]
  /\ Project.title <$> projects (addProject HandlerSamples.services
                                   (HandlerSamples.dialog " Launch" "Plan, , Build ,")).2
     = [" Launch"; "Launch"].
Proof.
  destruct (X13_add_project_outcome HandlerSamples.services
              (HandlerSamples.dialog " Launch" "Plan, , Build ,") "launch") as [H _];
    [by vm_compute | reflexivity |].
  rewrite H. split; reflexivity.
Defined.

(** ** The seed titles *)

Lemma split_nonempty (s : string) (sep : Ascii.ascii) : JSStringMore.split s sep <> [].
Proof.
  destruct s as [|c s]; cbn; [done |].
  destruct (decide (c = sep)); [done |]. by destruct (JSStringMore.split s sep).
Qed.

(** No piece of [s.split(sep)] holds the separator. *)
Lemma split_pieces_no_sep (s : string) (sep : Ascii.ascii) (piece : string) :
  piece ∈ JSStringMore.split s sep -> sep ∉ String.list_ascii_of_string piece.
Proof.
  revert piece. induction s as [|c s IH]; intros piece; cbn.
  - intros ->%list_elem_of_singleton. cbn. apply not_elem_of_nil.
  - destruct (decide (c = sep)) as [->|NE].
    + intros [-> | Hin]%elem_of_cons; [cbn; apply not_elem_of_nil | by apply IH].
    + destruct (JSStringMore.split s sep) as [|p ps] eqn:E.
      * by destruct (split_nonempty s sep).
      * intros [-> | Hin]%elem_of_cons.
        -- cbn. rewrite not_elem_of_cons. split; [done |]. apply IH. by left.
        -- apply IH. by right.
Qed.

(** There is one piece more than there are separators. *)
Lemma split_length (s : string) (sep : Ascii.ascii) :
  length (JSStringMore.split s sep)
  = S (length (filter (fun c => c = sep) (String.list_ascii_of_string s))).
Proof.
  induction s as [|c s IH]; [done |]. cbn [JSStringMore.split String.list_ascii_of_string].
  rewrite filter_cons. destruct (decide (c = sep)) as [->|NE].
  - cbn. by rewrite IH.
  - destruct (JSStringMore.split s sep) as [|p ps] eqn:E.
    + by destruct (split_nonempty s sep).
    + cbn in *. done.
Qed.

Lemma join_cons (piece : string) (pieces : list string) (sep : Ascii.ascii) :
  pieces <> [] ->
  JSStringMore.join (piece :: pieces) sep
  = piece +:+ String sep (JSStringMore.join pieces sep).
Proof. by destruct pieces. Qed.

(** Joining the pieces with the separator gives the string back. *)
Lemma join_split (s : string) (sep : Ascii.ascii) :
  JSStringMore.join (JSStringMore.split s sep) sep = s.
Proof.
  induction s as [|c s IH]; [done |]. cbn [JSStringMore.split].
  pose proof (split_nonempty s sep) as NE.
  destruct (decide (c = sep)) as [->|NEc].
  - rewrite join_cons by done. by rewrite IH.
  - destruct (JSStringMore.split s sep) as [|p ps]; [done |].
    destruct ps as [|q qs].
    + cbn in *. by rewrite IH.
    + rewrite join_cons in * by done. by rewrite <- IH.
Qed.

(** The pieces of a blank text are blank. *)
Lemma split_blank (s : string) (sep : Ascii.ascii) :
  JSString.isBlank s = true ->
  Forall (fun piece => JSString.isBlank piece = true) (JSStringMore.split s sep).
Proof.
  induction s as [|c s IH]; cbn; [by repeat constructor |].
  intros [Hc Hs]%andb_true_iff. specialize (IH Hs).
  destruct (decide (c = sep)); [by constructor |].
  destruct (JSStringMore.split s sep) as [|p ps]; [by repeat constructor; cbn; rewrite Hc |].
  inversion IH as [|? ? Hp Hps]; subst. constructor; [| done]. cbn. by rewrite Hc, Hp.
Qed.

Lemma chars_rev_app (s1 s2 : string) (c : Ascii.ascii) :
  c ∈ String.list_ascii_of_string (String.rev_app s1 s2)
  <-> c ∈ String.list_ascii_of_string s1 \/ c ∈ String.list_ascii_of_string s2.
Proof.
  revert s2. induction s1 as [|a s1 IH]; intros s2; cbn.
  - rewrite elem_of_nil. tauto.
  - rewrite IH. cbn. rewrite !elem_of_cons. tauto.
Qed.

Lemma chars_trimStart (s : string) (c : Ascii.ascii) :
  c ∈ String.list_ascii_of_string (JSString.trimStart s) -> c ∈ String.list_ascii_of_string s.
Proof.
  induction s as [|a s IH]; cbn; [done |].
  destruct (JSString.isWhiteSpace a); [| done]. intros H. apply elem_of_cons. right. by apply IH.
Qed.

(** [trim] only removes code units. *)
Lemma chars_trim (s : string) (c : Ascii.ascii) :
  c ∈ String.list_ascii_of_string (JSString.trim s) -> c ∈ String.list_ascii_of_string s.
Proof.
  unfold JSString.trim, JSString.trimEnd, String.rev.
  rewrite chars_rev_app. intros [H | H]; [| by apply elem_of_nil in H].
  apply chars_trimStart in H. apply chars_rev_app in H as [H | H]; [| by apply elem_of_nil in H].
  by apply chars_trimStart.
Qed.

Lemma elem_of_itemCalls (env : Env) (projectId : string) (k : nat) (titles : list string)
    (call : ItemCall) :
  call ∈ itemCalls env projectId k titles
  <-> exists i t, titles !! i = Some t
                  /\ call = Build_ItemCall projectId
                              (ProjectItem.mk (randomUUID env (k + i)) t false None).
Proof.
  unfold itemCalls. rewrite list_elem_of_lookup. split.
  - intros [i Hi]. rewrite list_lookup_imap in Hi.
    destruct (titles !! i) as [t|] eqn:E; [| done]. injection Hi as <-. by exists i, t.
  - intros (i & t & Hi & ->). exists i. by rewrite list_lookup_imap, Hi.
Qed.

(** X14. The items [addProject] seeds a new project with come from the
    comma-separated text of the form: every item it requests belongs to
    the new project, is not completed, has no deadline, and has a title
    that is not empty and holds no comma; segments that are blank give no
    item, so there are at most as many items as commas plus one, and a
    blank text gives none. *)
Theorem X14_seed_items (env : Env) (st : State) (slug : string) :
  JSString.trim (title (newProj st)) <> "" ->
  generateShortSlug env (title (newProj st)) = Normal slug ->
  (forall call,
      call ∈ onAddProjectItem_calls (addProject env st).2 ->
      call ∈ onAddProjectItem_calls st
      \/ (call_projectId call = randomUUID env (uuids_drawn st)
          /\ ProjectItem.completed (call_item call) = false
          /\ ProjectItem.deadline (call_item call) = None
          /\ ProjectItem.title (call_item call) <> ""
          /\ JSStringMore.comma ∉ String.list_ascii_of_string (ProjectItem.title (call_item call))))
  /\ length (onAddProjectItem_calls (addProject env st).2)
     <= length (onAddProjectItem_calls st)
        + S (length (filter (fun c => c = JSStringMore.comma)
                            (String.list_ascii_of_string (initialItems (newProj st)))))
  /\ (JSString.isBlank (initialItems (newProj st)) = true ->
      onAddProjectItem_calls (addProject env st).2 = onAddProjectItem_calls st).
Proof.
  intros NB Hs. rewrite (addProject_run env st slug NB Hs).
  unfold projectAdded. cbn [snd onAddProjectItem_calls].
  split; [| split].
  - intros call [Hold | Hnew]%elem_of_app; [by left | right].
    apply elem_of_itemCalls in Hnew as (i & t & Hi & ->). cbn.
    apply list_lookup_fmap_Some in Hi as (raw & -> & Hraw).
    apply list_elem_of_lookup_2, list_elem_of_filter in Hraw as [Hne Hin].
    repeat split; [done |].
    intros Hc%chars_trim. by apply (split_pieces_no_sep _ _ _ Hin).
  - rewrite length_app. apply Nat.add_le_mono_l.
    unfold itemCalls. rewrite length_imap, length_fmap. unfold seedTitles.
    etrans; [apply length_filter |]. by rewrite split_length.
  - intros B. unfold seedTitles.
    assert (filter (fun i => JSString.trim i ≠ "")
                   (JSStringMore.split (initialItems (newProj st)) JSStringMore.comma) = [])
      as ->; [| by rewrite app_nil_r].
    pose proof (split_blank _ JSStringMore.comma B) as Hall.
    induction Hall as [|p ps Hp _ IH]; [done |].
    rewrite filter_cons, decide_False; [done |].
    intros Hne. apply Hne. by apply StringFacts.trim_empty.
Qed.

Lemma X14_seed_items_witness :
  length (onAddProjectItem_calls
            (addProject HandlerSamples.services
                        (HandlerSamples.dialog "Launch" ",Plan,, Build ,")).2)
  <= 0 + 5.
Proof.
  destruct (X14_seed_items HandlerSamples.services
              (HandlerSamples.dialog "Launch" ",Plan,, Build ,") "launch") as (_ & H & _);
    [by vm_compute | reflexivity |].
  exact H.
Defined.

(** ** The AI breakdown and the card's buttons *)

Lemma itemCalls_titles (env : Env) (projectId : string) (k : nat) (titles : list string) :
  ProjectItem.title <$> (call_item <$> itemCalls env projectId k titles) = titles.
Proof.
  revert k. induction titles as [|t l IH]; intros k; [done |].
  rewrite itemCalls_cons, !fmap_cons, IH. done.
Qed.

(** X15. [handleBreakdown] marks the project as loading, asks the service
    for steps and requests one item per step: when the service answers,
    the items are requested in the order of the steps, with the steps as
    their titles (unchanged, blank ones too), not completed, each with an
    identifier of its own, and the loading mark is cleared; when the
    service rejects, the handler fails, no item is requested and the
    project stays marked as loading.  The project list, the dialog and its
    form are never touched. *)
Theorem X15_breakdown_outcome (env : Env) (project : Project.t) (st : State) :
  (forall steps,
      breakdownProject env project = Normal steps ->
      handleBreakdown env project st
      = (Normal tt,
         Build_State (showAddModal st) None (newProj st) (projects st)
                     (onAddProjectItem_calls st
                        ++ itemCalls env (Project.id project) (uuids_drawn st) steps)
                     (uuids_drawn st + length steps))
      /\ ProjectItem.title <$> (call_item <$> itemCalls env (Project.id project)
                                                  (uuids_drawn st) steps)
         = steps)
  /\ (breakdownProject env project = Throw ->
      handleBreakdown env project st
      = (Throw,
         Build_State (showAddModal st) (Some (Project.id project)) (newProj st) (projects st)
                     (onAddProjectItem_calls st) (uuids_drawn st))).
Proof.
  split.
  - intros steps Hb. split.
    + unfold handleBreakdown, setLoadingId.
      unfold mbind at 1, Handler_bind. unfold mbind at 1, Handler_bind, await. rewrite Hb.
      unfold mbind at 1, Handler_bind.
      rewrite (forEach_addItem env (Project.id project) (fun step => step)). cbn.
      by rewrite list_fmap_id.
    + apply itemCalls_titles.
  - intros Hb. unfold handleBreakdown, setLoadingId.
    unfold mbind at 1, Handler_bind. unfold mbind at 1, Handler_bind, await. by rewrite Hb.
Qed.

Lemma X15_breakdown_outcome_witness :
  (call_item <$>
     onAddProjectItem_calls
       (handleBreakdown HandlerSamples.services (Samples.project [true; false])
                        (HandlerSamples.dialog "" "")).2)
  = [ProjectItem.mk "uuid-0" "Plan" false None; ProjectItem.mk "uuid-1" "Build" false None;
     ProjectItem.mk "uuid-2" "Ship" false None]
  /\ loadingId (handleBreakdown HandlerSamples.down (Samples.project [true; false])
                                (HandlerSamples.dialog "" "")).2
     = Some "p-1".
Proof.
  destruct (X15_breakdown_outcome HandlerSamples.services (Samples.project [true; false])
              (HandlerSamples.dialog "" "")) as [H1 _].
  destruct (H1 ["Plan"; "Build"; "Ship"] eq_refl) as [E1 _].
  destruct (X15_breakdown_outcome HandlerSamples.down (Samples.project [true; false])
              (HandlerSamples.dialog "" "")) as [_ H2].
  rewrite E1, (H2 eq_refl). split; reflexivity.
Defined.

Lemma onDelete_elem_of (p q : Project.t) (projects : list Project.t) :
  q ∈ onDelete p projects <-> q ∈ projects /\ Project.id q <> Project.id p.
Proof. unfold onDelete. rewrite list_elem_of_filter. tauto. Qed.

Lemma onDelete_absent (p : Project.t) (projects : list Project.t) :
  Project.id p ∉ Project.id <$> projects -> onDelete p projects = projects.
Proof.
  unfold onDelete. induction projects as [|h l IH]; [done |].
  rewrite fmap_cons, not_elem_of_cons. intros [NE Hl].
  rewrite filter_cons, decide_True by done. by rewrite IH.
Qed.

(** X16. The trash button of a card removes the card's project and no
    other: the projects left are those with another id, in their order;
    the project itself is gone, and pressing again changes nothing; the
    active list after the deletion is the active list before it without
    that project; and when the ids are unique and the project is listed,
    the list before is the list after plus that one project. *)
Theorem X16_delete_project (p : Project.t) (projects : list Project.t) :
  (forall q, q ∈ onDelete p projects <-> q ∈ projects /\ Project.id q <> Project.id p)
  /\ onDelete p projects `sublist_of` projects
  /\ onDelete p (onDelete p projects) = onDelete p projects
  /\ activeProjects (onDelete p projects) = onDelete p (activeProjects projects)
  /\ (NoDup (Project.id <$> projects) -> p ∈ projects ->
      projects ≡ₚ p :: onDelete p projects).
Proof.
  split; [intros q; apply onDelete_elem_of |].
  split; [apply sublist_filter |].
  split.
  { unfold onDelete. rewrite list_filter_filter. apply list_filter_iff. intros q. tauto. }
  split.
  { unfold activeProjects, onDelete.
    apply (BoardFacts.filter_comm (fun q => isActive q = true)
             (fun proj => Project.id proj ≠ Project.id p)). }
  induction projects as [|h l IH]; [by intros _ ?%elem_of_nil |].
  rewrite fmap_cons, NoDup_cons. intros [Hnotin Hnd] Hin.
  unfold onDelete. rewrite filter_cons. fold (onDelete p l).
  destruct (decide (Project.id h ≠ Project.id p)) as [NE|E].
  - apply elem_of_cons in Hin as [-> | Hin]; [done |].
    rewrite (IH Hnd Hin) at 1. apply perm_swap.
  - apply dec_stable in E.
    assert (p = h) as ->.
    { apply elem_of_cons in Hin as [-> | Hin]; [done |].
      destruct Hnotin. rewrite E. apply list_elem_of_fmap. by exists p. }
    by rewrite onDelete_absent.
Qed.

Lemma X16_delete_project_witness :
  [Samples.project [true]; HandlerSamples.backlog]
  ≡ₚ Samples.project [true] :: onDelete (Samples.project [true])
                                 [Samples.project [true]; HandlerSamples.backlog].
Proof.
  destruct (X16_delete_project (Samples.project [true])
              [Samples.project [true]; HandlerSamples.backlog]) as (_ & _ & _ & _ & H).
  apply H.
  - apply (@bool_decide_unpack _ (NoDup_dec _)). exact I.
  - apply elem_of_cons. by left.
Defined.

End ProjectHandlerFacts.

(** * ProjectCard: what a card can ask for *)
Module CardFacts.
Import ProjectView ProjectCard.

(** [steps] over one sequence of events after another. *)
Lemma steps_app (project : Project.t) (st : State) (evs1 evs2 : list Event) :
  steps project st (evs1 ++ evs2)
  = ((steps project (steps project st evs1).1 evs2).1,
     (steps project st evs1).2 ++ (steps project (steps project st evs1).1 evs2).2).
Proof.
  revert st. induction evs1 as [|ev evs IH]; intros st.
  - cbn. by destruct (steps project st evs2).
  - cbn. destruct (step project st ev) as [st1 out1]. rewrite IH.
    destruct (steps project st1 evs) as [st2 out2]. cbn.
    destruct (steps project st2 evs2) as [st3 out3]. cbn. by rewrite app_assoc.
Qed.

(** Typing in the edit form. *)
Lemma steps_inputs (project : Project.t) (text : string) (data : EditData.t)
    (changes : list Change) :
  steps project (Build_State text true data) (Input <$> changes)
  = (Build_State text true (foldl onChange data changes), []).
Proof.
  revert data. induction changes as [|ch l IH]; intros data; [done |].
  rewrite fmap_cons. cbn. by rewrite IH.
Qed.

(** Where a call of one event comes from. *)
Lemma step_output (project : Project.t) (st : State) (ev : Event) (out : Output) :
  out ∈ (step project st ev).2 ->
  (ev = SubmitNewItem /\ isEditing st = false
   /\ JSString.trim (newItemTitle st) <> "" /\ out = OnAddItem (newItemTitle st))
  \/ (ev = ClickSave /\ isEditing st = true
      /\ out = OnUpdate (spread project (editData st))).
Proof.
  unfold step.
  destruct ev, (isEditing st) eqn:Hed; cbn; try (by intros ?%elem_of_nil).
  - intros ->%list_elem_of_singleton. by right.
  - destruct (decide _) as [B|NB]; cbn; [by intros ?%elem_of_nil |].
    intros ->%list_elem_of_singleton. by left.
Qed.

Lemma steps_cons_state (project : Project.t) (st : State) (ev : Event) (evs : list Event) :
  (steps project st (ev :: evs)).1 = (steps project (step project st ev).1 evs).1.
Proof.
  cbn. destruct (step project st ev) as [st1 out1]. cbn.
  by destruct (steps project st1 evs).
Qed.

Lemma steps_cons_outputs (project : Project.t) (st : State) (ev : Event) (evs : list Event) :
  (steps project st (ev :: evs)).2
  = (step project st ev).2 ++ (steps project (step project st ev).1 evs).2.
Proof.
  cbn. destruct (step project st ev) as [st1 out1]. cbn.
  by destruct (steps project st1 evs).
Qed.

(** Every call of a sequence of events is the call of one of its events,
    made from the state the events before it led to. *)
Lemma steps_output (project : Project.t) (st : State) (evs : list Event) (out : Output) :
  out ∈ (steps project st evs).2 ->
  exists evs1 evs2,
    (evs = evs1 ++ SubmitNewItem :: evs2
     /\ isEditing (steps project st evs1).1 = false
     /\ JSString.trim (newItemTitle (steps project st evs1).1) <> ""
     /\ out = OnAddItem (newItemTitle (steps project st evs1).1))
    \/ (evs = evs1 ++ ClickSave :: evs2
        /\ isEditing (steps project st evs1).1 = true
        /\ out = OnUpdate (spread project (editData (steps project st evs1).1))).
Proof.
  revert st. induction evs as [|ev evs IH]; intros st; [by intros ?%elem_of_nil |].
  rewrite steps_cons_outputs. intros [Hin | Hin]%elem_of_app.
  - exists [], evs. cbn [steps fst app].
    destruct (step_output _ _ _ _ Hin) as [(-> & ? & ? & ?) | (-> & ? & ?)]; [by left | by right].
  - destruct (IH _ Hin) as (evs1 & evs2 & H). exists (ev :: evs1), evs2.
    rewrite steps_cons_state.
    destruct H as [(-> & ? & ? & ?) | (-> & ? & ?)]; [by left | by right].
Qed.

(** X17. Whatever the user does on a card, in whatever order, every call
    the card makes comes from one event: a title handed to [onAddItem]
    comes from a submission of the add-item form while the edit form is
    closed, and is the text the add-item input holds at that moment, as
    typed (not trimmed), which is not blank; a project handed to [onUpdate]
    comes from Save while the edit form is open, and is the project the
    card shows with the draft's title, description and deadline over it,
    so it has the id, slug, items, term and status of that project.  The
    input holds what was typed last: typing sets the text, a submission
    that adds an item hands it over and clears it, and no other event
    changes it.  While the edit form is open no item is added, and while
    it is closed nothing is saved. *)
Theorem X17_card_calls_are_well_formed (project : Project.t) (st : State)
    (evs : list Event) :
  Forall (fun out =>
            match out with
            | OnUpdate updated =>
                Project.id updated = Project.id project
                /\ Project.slug updated = Project.slug project
                /\ Project.items updated = Project.items project
                /\ Project.term updated = Project.term project
                /\ Project.status updated = Project.status project
            | OnAddItem title => JSString.trim title <> ""
            end)
         (steps project st evs).2
  /\ (forall out,
         out ∈ (steps project st evs).2 ->
         exists evs1 evs2,
           (evs = evs1 ++ SubmitNewItem :: evs2
            /\ isEditing (steps project st evs1).1 = false
            /\ out = OnAddItem (newItemTitle (steps project st evs1).1))
           \/ (evs = evs1 ++ ClickSave :: evs2
               /\ isEditing (steps project st evs1).1 = true
               /\ out = OnUpdate (spread project (editData (steps project st evs1).1))))
  /\ (forall text,
         isEditing st = false ->
         newItemTitle (step project st (TypeNewItem text)).1 = text
         /\ (JSString.trim text <> "" ->
             steps project st [TypeNewItem text; SubmitNewItem]
             = (Build_State "" false (editData st), [OnAddItem text])))
  /\ (forall ev,
         (forall text, ev <> TypeNewItem text) ->
         newItemTitle (step project st ev).1 = newItemTitle st
         \/ (ev = SubmitNewItem /\ (step project st ev).2 = [OnAddItem (newItemTitle st)]
             /\ newItemTitle (step project st ev).1 = ""))
  /\ (forall ev title, isEditing st = true -> OnAddItem title ∉ (step project st ev).2)
  /\ (forall ev updated, isEditing st = false -> OnUpdate updated ∉ (step project st ev).2).
Proof.
  split; [| split; [| split; [| split; [| split]]]].
  - apply Forall_forall. intros out Hin.
    destruct (steps_output _ _ _ _ Hin) as (evs1 & evs2 & [(_ & _ & NB & ->) | (_ & _ & ->)]);
      [done | by repeat split].
  - intros out Hin.
    destruct (steps_output _ _ _ _ Hin) as (evs1 & evs2 & [(? & ? & _ & ?) | (? & ? & ?)]);
      exists evs1, evs2; [by left | by right].
  - intros text Hed. unfold steps, step. rewrite Hed. cbn. split; [done |].
    intros NB. by rewrite decide_False.
  - intros ev Hev. unfold step.
    destruct ev, (isEditing st); cbn; try (by left).
    + by destruct (Hev text).
    + destruct (decide _); cbn; [by left | right; done].
  - intros ev title Hed Hin. apply step_output in Hin as [(_ & ? & _) | (_ & _ & ?)]; congruence.
  - intros ev updated Hed Hin.
    apply step_output in Hin as [(_ & _ & _ & ?) | (_ & ? & _)]; congruence.
Qed.

Lemma X17_card_calls_are_well_formed_witness :
  steps (Samples.project [true; false]) (mount (Samples.project [true; false]))
        [TypeNewItem " Test "; SubmitNewItem]
  = (Build_State "" false (initialEditData (Samples.project [true; false])),
     [OnAddItem " Test "])
  /\ (steps (Samples.project [true; false]) (mount (Samples.project [true; false]))
            [TypeNewItem "  "; SubmitNewItem; TypeNewItem " Test "; SubmitNewItem;
             ClickPencil; SubmitNewItem; Input (ChangeTitle "Relaunch"); ClickSave]).2
     = [OnAddItem " Test ";
        OnUpdate (Project.mk "p-1" "Relaunch" "Ship the first release" Mid "2024-06-30"
                             "In Progress" (imap Samples.item [true; false]) "launch")].
Proof.
  split; [| reflexivity].
  destruct (X17_card_calls_are_well_formed (Samples.project [true; false])
              (mount (Samples.project [true; false])) [])
    as (_ & _ & H & _).
  destruct (H " Test " eq_refl) as [_ H']. apply H'. by vm_compute.
Defined.

(** X18. Cancelling an edit does not discard what was typed: the card
    keeps its draft, so after typing, Cancel, the pencil again and Save,
    the card hands [onUpdate] the project with the changes typed before
    the cancel; and a card opened and saved without typing hands back the
    fields the project had when the card was mounted, whatever the project
    shown holds by then. *)
Theorem X18_cancel_keeps_the_draft (mounted shown : Project.t) (changes : list Change) :
  steps shown (mount mounted)
        (ClickPencil :: (Input <$> changes) ++ [ClickCancel; ClickPencil; ClickSave])
  = (Build_State "" false (foldl onChange (initialEditData mounted) changes),
     [OnUpdate (onSave mounted shown changes)])
  /\ steps shown (mount mounted) [ClickPencil; ClickSave]
     = (mount mounted, [OnUpdate (spread shown (initialEditData mounted))]).
Proof.
  split; [| done].
  change (ClickPencil :: (Input <$> changes) ++ [ClickCancel; ClickPencil; ClickSave])
    with ([ClickPencil] ++ (Input <$> changes) ++ [ClickCancel; ClickPencil; ClickSave]).
  rewrite steps_app. cbn [steps step mount isEditing fst snd app newItemTitle editData].
  rewrite steps_app, steps_inputs. done.
Qed.

End CardFacts.

(** * DailyView: the form over time *)
Module FormFacts.
Import DailyView DailyForm.

(** What one submission does to the recorded calls, the text and the
    loading flag, in the three outcomes of [handleAddTask]. *)
Lemma submit_cases (env : Env) (st : State) :
  (handleAddTask env st = (Normal tt, st) /\ JSString.trim (newTaskTitle st) = "")
  \/ (exists call,
         handleAddTask env st = (Normal tt, created st call)
         /\ arg_title call = newTaskTitle st
         /\ arg_date call = selectedDate st
         /\ JSString.trim (newTaskTitle st) <> "")
  \/ (handleAddTask env st
      = (Throw,
         Build_State (newTaskTitle st) (manualCategory st) (selectedDate st) true
                     (onAddTask_calls st))
      /\ manualCategory st = Auto).
Proof.
  destruct (decide (JSString.trim (newTaskTitle st) = "")) as [B|NB].
  { left. by rewrite AddTaskFacts.handleAddTask_blank. }
  right.
  destruct (isUrl (newTaskTitle st)) eqn:Hurl.
  - destruct (AddTaskMoreFacts.handleAddTask_resolved_or_failed env (newTaskTitle st))
      as [(host & title & slug & Hh & Ht & Hs) | Hf].
    + left. rewrite (AddTaskFacts.handleAddTask_linked env st host title slug) by done.
      by eexists.
    + rewrite (AddTaskFacts.handleAddTask_fallback env st NB (or_intror Hf)).
      destruct (manualCategory st) as [|c].
      * destruct (categorizeTask env (newTaskTitle st)); [left; by eexists | by right].
      * left. by eexists.
  - rewrite (AddTaskFacts.handleAddTask_fallback env st NB (or_introl Hurl)).
    destruct (manualCategory st) as [|c].
    + destruct (categorizeTask env (newTaskTitle st)); [left; by eexists | by right].
    + left. by eexists.
Qed.

Lemma run_loading (st : State) (evs : list Event) :
  isAiLoading st = true ->
  isAiLoading (run st evs) = true
  /\ onAddTask_calls (run st evs) = onAddTask_calls st
  /\ newTaskTitle (run st evs) = newTaskTitle st.
Proof.
  revert st. unfold run. induction evs as [|ev evs IH]; intros st Hl; [done |].
  cbn [foldl].
  assert (isAiLoading (step st ev) = true
          /\ onAddTask_calls (step st ev) = onAddTask_calls st
          /\ newTaskTitle (step st ev) = newTaskTitle st) as (H1 & H2 & H3).
  { destruct ev; cbn; rewrite ?Hl; done. }
  destruct (IH _ H1) as (? & ? & ?). split; [done |]. split; congruence.
Qed.

(** X19. A failed submission leaves the form dead: when [handleAddTask]
    fails (no category chosen and the classifier rejects) the loading flag
    stays set, the text input and the submit button stay disabled, and
    nothing the user does on the form afterwards, in any order and whatever
    the services would answer, requests an entry or changes the text. *)
Theorem X19_failed_add_blocks_the_form (env : Env) (st : State) (evs : list Event) :
  (handleAddTask env st).1 = Throw ->
  isAiLoading (run (handleAddTask env st).2 evs) = true
  /\ onAddTask_calls (run (handleAddTask env st).2 evs) = onAddTask_calls st
  /\ newTaskTitle (run (handleAddTask env st).2 evs) = newTaskTitle st.
Proof.
  intros Hthrow.
  destruct (submit_cases env st) as [[E _] | [(call & E & _) | [E _]]];
    rewrite E in Hthrow |- *; try done.
  cbn [snd]. exact (run_loading (Build_State _ _ _ true _) evs eq_refl).
Qed.

Lemma X19_failed_add_blocks_the_form_witness :
  onAddTask_calls
    (run (handleAddTask Samples.offline (Samples.draft "Write report" Auto)).2
         [TypeText "Again"; PickCategory Areas; Submit Samples.online])
  = [].
Proof.
  destruct (X19_failed_add_blocks_the_form Samples.offline
              (Samples.draft "Write report" Auto)
              [TypeText "Again"; PickCategory Areas; Submit Samples.online])
    as (_ & H & _); [reflexivity |].
  exact H.
Defined.

(** X20. The form has no way back to automatic classification: once a
    category button was pressed, after any further events a category is
    still chosen; and from then on a form that is not loading never gets
    stuck, whatever the services answer. *)
Theorem X20_chosen_category_is_sticky (st : State) (c : ParaCategory) (evs : list Event) :
  manualCategory st = Chosen c ->
  (exists c', manualCategory (run st evs) = Chosen c')
  /\ (isAiLoading st = false -> isAiLoading (run st evs) = false).
Proof.
  revert st c. unfold run. induction evs as [|ev evs IH]; intros st c M.
  { split; [by exists c | done]. }
  cbn [foldl].
  assert ((exists c', manualCategory (step st ev) = Chosen c')
          /\ (isAiLoading st = false -> isAiLoading (step st ev) = false)) as [[c' M'] Hl'].
  { destruct ev as [text | cat | date | answers]; cbn.
    - split; [exists c; by destruct (isAiLoading st) | by intros ->].
    - split; [by exists cat | done].
    - split; [by exists c | done].
    - destruct (isAiLoading st) eqn:L; [split; [by exists c | done] |].
      destruct (submit_cases answers st) as [[E _] | [(call & E & _) | [E M0]]];
        rewrite E; cbn; try (split; [by exists c | done]).
      congruence. }
  destruct (IH _ _ M') as [H1 H2]. split; [done |]. intros L. apply H2, Hl', L.
Qed.

Lemma X20_chosen_category_is_sticky_witness :
  isAiLoading
    (run (Samples.draft "" (Chosen Areas))
         [TypeText "Write report"; Submit Samples.offline; TypeText "Again";
          Submit Samples.offline])
  = false.
Proof.
  destruct (X20_chosen_category_is_sticky (Samples.draft "" (Chosen Areas)) Areas
              [TypeText "Write report"; Submit Samples.offline; TypeText "Again";
               Submit Samples.offline])
    as [_ H]; [reflexivity |].
  by apply H.
Defined.

(** X21. Entries are only ever added, one per submission at most: after
    any sequence of events the calls recorded before are still there, in
    front and in their order, there are at most as many new ones as there
    were submissions, and every new one has a title that is not blank. *)
Theorem X21_entries_only_grow (st : State) (evs : list Event) :
  exists new,
    onAddTask_calls (run st evs) = onAddTask_calls st ++ new
    /\ length new <= submissions evs
    /\ Forall (fun call => JSString.trim (arg_title call) <> "") new.
Proof.
  revert st. unfold run, submissions. induction evs as [|ev evs IH]; intros st.
  { exists []. by rewrite app_nil_r. }
  cbn [foldl]. destruct (IH (step st ev)) as (new & E & Hlen & Hall). rewrite E.
  rewrite filter_cons.
  destruct ev as [text | cat | date | answers]; cbn [step isSubmit].
  - exists new. rewrite decide_False by done.
    split; [by destruct (isAiLoading st) | done].
  - exists new. by rewrite decide_False by done.
  - exists new. by rewrite decide_False by done.
  - rewrite decide_True by done. cbn [length].
    destruct (isAiLoading st); [exists new; split; [done |]; split; [lia | done] |].
    destruct (submit_cases answers st) as [[E' _] | [(call & E' & Ht & _ & NB) | [E' _]]];
      rewrite E'; cbn [snd].
    + exists new. split; [done |]. split; [lia | done].
    + exists (call :: new). cbn. rewrite <- app_assoc. split; [done |].
      split; [lia |]. constructor; [by rewrite Ht | done].
    + exists new. split; [done |]. split; [lia | done].
Qed.

End FormFacts.

(** * ProjectView: how progress moves *)
Module ProgressFacts.
Import JSNumber ProjectView NumberFacts PercentFacts ProjectFacts.
Local Open Scope Q_scope.

Lemma exact_percent_diff (c1 c2 t : nat) :
  (0 < t)%nat ->
  inject_Z (200 * Z.of_nat c2 - 200 * Z.of_nat c1) / (2 * of_nat t)
  == exact_percent c2 t - exact_percent c1 t.
Proof.
  intros Ht. pose proof (of_nat_pos t Ht) as Hp.
  unfold exact_percent, of_nat. rewrite inject_Z_minus, !inject_Z_mult.
  change (inject_Z 200) with 200. field. unfold of_nat in Hp. lra.
Qed.

(** More completed items never give a smaller percentage. *)
Lemma percent_mono (c1 c2 t : nat) :
  (0 < t)%nat -> (c1 <= c2)%nat -> (c2 <= t)%nat -> (Z.of_nat t < 2 ^ 32)%Z ->
  (percent c1 t <= percent c2 t)%Z.
Proof.
  intros Ht H12 H2t Hlen.
  destruct (Nat.eq_dec c1 c2) as [->|NE]; [lia |].
  pose proof (percent_close c1 t Ht ltac:(lia)) as H1. apply Qabs_Qle_condition in H1.
  pose proof (percent_close c2 t Ht H2t) as H2. apply Qabs_Qle_condition in H2.
  pose proof (of_nat_pos t Ht) as Hp.
  pose proof (grid_gap t (200 * Z.of_nat c2 - 200 * Z.of_nat c1) Ht Hlen) as G.
  rewrite (exact_percent_diff c1 c2 t Ht) in G.
  assert (0 < exact_percent c2 t - exact_percent c1 t) as Hpos.
  { rewrite <- (exact_percent_diff c1 c2 t Ht). apply Qlt_shift_div_l; [lra |].
    assert (0 < inject_Z (200 * Z.of_nat c2 - 200 * Z.of_nat c1));
      [change 0 with (inject_Z 0); rewrite <- Zlt_Qlt; lia | lra]. }
  specialize (G Hpos).
  unfold percent, Math_round. apply Qfloor_resp_le. lra.
Qed.

Lemma percent_half (c t : nat) :
  (0 < t)%nat -> (200 * c = t)%nat -> percent c t = 1%Z.
Proof.
  intros Ht E. pose proof (of_nat_pos t Ht) as Hp. unfold percent, div.
  assert (of_nat c / of_nat t == 1 # 200) as ->; [| by vm_compute].
  assert (of_nat c * 200 == of_nat t) as Hq.
  { unfold of_nat. change 200 with (inject_Z 200).
    rewrite <- !inject_Z_mult. apply inject_Z_injective. lia. }
  apply Qmult_inj_r with (z := of_nat t); [lra |].
  assert (of_nat c / of_nat t * of_nat t == of_nat c) as -> by (field; lra). lra.
Qed.

(** The percentage is 0 exactly below half a percent. *)
Lemma percent_0_iff (c t : nat) :
  (0 < t)%nat -> (c <= t)%nat -> (Z.of_nat t < 2 ^ 32)%Z ->
  percent c t = 0%Z <-> (200 * c < t)%nat.
Proof.
  intros Ht Hc Hlen.
  pose proof (percent_close c t Ht Hc) as H. apply Qabs_Qle_condition in H.
  pose proof (of_nat_pos t Ht) as Hp. pose proof (percent_range c t Ht Hc) as Hr.
  split.
  - intros E. apply Nat.nle_gt. intros Hge.
    destruct (Nat.eq_dec (200 * c)%nat t) as [E2|NE].
    { rewrite (percent_half c t Ht E2) in E. done. }
    pose proof (grid_gap t (200 * Z.of_nat c - Z.of_nat t) Ht Hlen) as G.
    assert (inject_Z (200 * Z.of_nat c - Z.of_nat t) / (2 * of_nat t)
            == exact_percent c t - (1 # 2)) as Hg.
    { unfold exact_percent, of_nat. rewrite inject_Z_minus, !inject_Z_mult.
      change (inject_Z 200) with 200. field. unfold of_nat in Hp. lra. }
    rewrite Hg in G.
    assert (0 < exact_percent c t - (1 # 2)) as Hpos.
    { rewrite <- Hg. apply Qlt_shift_div_l; [lra |].
      assert (0 < inject_Z (200 * Z.of_nat c - Z.of_nat t));
        [change 0 with (inject_Z 0); rewrite <- Zlt_Qlt; lia | lra]. }
    specialize (G Hpos).
    assert (1 <= percent c t)%Z; [| lia].
    unfold percent, Math_round. apply Qfloor_ge. change (inject_Z 1) with 1. lra.
  - intros Hlt.
    pose proof (grid_gap t (Z.of_nat t - 200 * Z.of_nat c) Ht Hlen) as G.
    assert (inject_Z (Z.of_nat t - 200 * Z.of_nat c) / (2 * of_nat t)
            == (1 # 2) - exact_percent c t) as Hg.
    { unfold exact_percent, of_nat. rewrite inject_Z_minus, !inject_Z_mult.
      change (inject_Z 200) with 200. field. unfold of_nat in Hp. lra. }
    rewrite Hg in G.
    assert (0 < (1 # 2) - exact_percent c t) as Hpos.
    { rewrite <- Hg. apply Qlt_shift_div_l; [lra |].
      assert (0 < inject_Z (Z.of_nat t - 200 * Z.of_nat c));
        [change 0 with (inject_Z 0); rewrite <- Zlt_Qlt; lia | lra]. }
    specialize (G Hpos).
    assert (percent c t < 1)%Z; [| lia].
    unfold percent, Math_round. apply Qfloor_lt. change (inject_Z 1) with 1. lra.
Qed.

Local Close Scope Q_scope.

(** X22. Progress never goes down when more items are completed: of two
    projects with the same number of items (fewer than 2^32, as every
    array has), the one with at least as many completed items has at
    least the progress of the other.  Ticking an item off leaves the
    percentage where it is or raises it. *)
Theorem X22_progress_is_monotone (p q : Project.t) :
  totalCount p = totalCount q ->
  (Z.of_nat (totalCount p) < 2 ^ 32)%Z ->
  completedCount p <= completedCount q ->
  (getProgress p <= getProgress q)%Z.
Proof.
  intros Et Hlen Hc.
  destruct (Nat.eq_dec (totalCount p) 0) as [E|NE].
  - unfold getProgress. fold (totalCount p). fold (totalCount q). rewrite <- Et, E. done.
  - rewrite !getProgress_percent by congruence. rewrite <- Et.
    apply percent_mono; [lia | done | | done].
    rewrite Et. apply completedCount_le.
Qed.

Lemma X22_progress_is_monotone_witness :
  (getProgress (Samples.project_of 22 18) <= getProgress (Samples.project_of 23 17))%Z.
Proof.
  apply (X22_progress_is_monotone (Samples.project_of 22 18) (Samples.project_of 23 17)).
  - reflexivity.
  - by vm_compute.
  - vm_compute. lia.
Defined.

(** X23. The two ends of the progress bar.  A project shows 0 exactly
    when it has no item or fewer than half a percent of its items are
    completed (so 0 does not mean that nothing is done: 1 of 201 shows 0),
    and a project with no completed item always shows 0.  A project that
    the active list hides always shows 100. *)
Theorem X23_progress_zero_and_hidden (p : Project.t) :
  (completedCount p = 0 -> getProgress p = 0%Z)
  /\ (isActive p = false -> getProgress p = 100%Z)
  /\ ((Z.of_nat (totalCount p) < 2 ^ 32)%Z ->
      getProgress p = 0%Z <-> 200 * completedCount p < totalCount p \/ totalCount p = 0).
Proof.
  assert (forall t, 0 < t -> JSNumber.percent 0 t = 0%Z) as Hzero.
  { intros t Ht. pose proof (of_nat_pos t Ht). unfold JSNumber.percent, JSNumber.div.
    assert (JSNumber.of_nat 0 / JSNumber.of_nat t == 0)%Q as ->; [| by vm_compute].
    unfold JSNumber.of_nat at 1. cbn [Z.of_nat]. change (inject_Z 0) with 0%Q.
    unfold Qdiv. apply Qmult_0_l. }
  split; [| split].
  - intros E. destruct (Nat.eq_dec (totalCount p) 0) as [E0|NE].
    + unfold getProgress. fold (totalCount p). by rewrite E0.
    + rewrite getProgress_percent, E by done. apply Hzero. lia.
  - intros Hhid.
    assert (totalCount p <> 0 /\ completedCount p = totalCount p) as [NE Eall].
    { pose proof (completedCount_le p).
      destruct (isActive p) eqn:A; [done |].
      assert (~ (totalCount p = 0 \/ completedCount p < totalCount p)) as Hn.
      { intros Ha%isActive_iff. congruence. }
      lia. }
    rewrite getProgress_percent, Eall by done. apply percent_full. lia.
  - intros Hlen. destruct (Nat.eq_dec (totalCount p) 0) as [E0|NE].
    + unfold getProgress. fold (totalCount p). rewrite E0. cbn. intuition.
    + rewrite getProgress_percent by done.
      rewrite percent_0_iff; [| lia | apply completedCount_le | done]. intuition.
Qed.

Lemma X23_progress_zero_and_hidden_witness :
  getProgress (Samples.project_of 1 200) = 0%Z
  /\ getProgress (Samples.project_of 3 0) = 100%Z.
Proof.
  destruct (X23_progress_zero_and_hidden (Samples.project_of 1 200)) as (_ & _ & H).
  destruct (X23_progress_zero_and_hidden (Samples.project_of 3 0)) as (_ & H' & _).
  split.
  - apply H; [by vm_compute |]. left. vm_compute. lia.
  - apply H'. reflexivity.
Defined.

End ProgressFacts.
